(** * MergeTreeDataPartWide: mark decoding, consistency checks and column sizes

    A shallow embedding of [MergeTreeDataPartWide.cpp]: the wide part of a
    MergeTree table, its index granularity loader, its consistency checker
    and its per-column size accounting.  Exceptions are values of an error
    monad, [size_t]/[UInt64] arithmetic is [Z] arithmetic with the wrap at
    [2^64] written out, [std::map] and [std::unordered_set] are [gmap] and
    [gset]. *)

From Stdlib Require Import ZArith List String Lia.
From coqutil Require Import Byte Word.LittleEndianList.
From stdpp Require Import gmap strings list fin_maps fin_sets.

Local Open Scope Z_scope.
Local Open Scope string_scope.

(** ** Exceptions *)

Inductive ErrorCode :=
| NO_FILE_IN_DATA_PART
| BAD_SIZE_OF_FILE_IN_DATA_PART
| LOGICAL_ERROR
| CANNOT_READ_ALL_DATA
| FILE_DOESNT_EXIST
| OTHER_ERROR (n : Z).

#[global] Instance ErrorCode_eq_dec : EqDecision ErrorCode.
Proof. solve_decision. Defined.

(** An argument of a format string: [{}] is filled by a string or a number. *)
Inductive FormatArg :=
| ArgStr (s : string)
| ArgNum (n : Z).

(** [Exception(code, fmt, args...)]. *)
Record Exception := mkException {
  code : ErrorCode;
  format : string;
  args : list FormatArg
}.

Inductive Except (A : Type) :=
| Ok (a : A)
| Throw (e : Exception).
Arguments Ok {A} a.
Arguments Throw {A} e.

#[global] Instance Except_ret : MRet Except := fun A a => Ok a.
#[global] Instance Except_bind : MBind Except := fun A B f m =>
  match m with
  | Ok a => f a
  | Throw e => Throw e
  end.

(** A loop whose body may throw: the state is threaded through the elements
    in order, and the first exception ends the loop. *)
Fixpoint foldM {S A : Type} (body : S -> A -> Except S) (s : S) (l : list A)
  : Except S :=
  match l with
  | [] => Ok s
  | a :: l' => s' ← body s a; foldM body s' l'
  end.

Definition isThrow {A} (m : Except A) : bool :=
  match m with Ok _ => false | Throw _ => true end.

(** ** Machine integers *)

Definition wrap64 (z : Z) : Z := z mod 2 ^ 64.

(** ** Data model *)

(** Modelled from the spec: a checksum entry is (file_size,
    uncompressed_size, content_hash) for one physical file; the hash is not
    read by the code below and is left out. *)
Record Checksum := mkChecksum {
  file_size : Z;
  uncompressed_size : Z
}.

(** Modelled from the spec: the checksum index maps physical file names,
    which are unique, to entries. *)
Record MergeTreeDataPartChecksums := mkChecksums {
  files : gmap string Checksum
}.

(** [checksums.empty()]. *)
Definition checksums_empty (c : MergeTreeDataPartChecksums) : bool :=
  bool_decide (files c = ∅).

(** [checksums.files.contains(name)]. *)
Definition files_contains (c : MergeTreeDataPartChecksums) (file : string) : bool :=
  bool_decide (is_Some (files c !! file)).

(** Modelled from the spec: the mark format is adaptive or not, generically
    compressed or not, and has a fixed granularity. *)
Record MarkType := mkMarkType {
  adaptive : bool;
  compressed : bool
}.

Record MergeTreeIndexGranularityInfo := mkGranularityInfo {
  mark_type : MarkType;
  fixed_index_granularity : Z
}.

(** Modelled from the spec: [MergeTreeIndexGranularity] is declared outside
    the file; the spec describes the table as the ordered sequence of
    per-mark row counts.  [initialized] is the flag of [setInitialized]. *)
Record MergeTreeIndexGranularity := mkGranularity {
  marks_rows : list Z;
  initialized : bool
}.

(** Modelled from the spec: a freshly constructed part has an empty table. *)
Definition empty_granularity : MergeTreeIndexGranularity :=
  {| marks_rows := []; initialized := false |}.

(** Modelled from the spec: [appendMark] adds one per-mark row count. *)
Definition appendMark (ig : MergeTreeIndexGranularity) (rows : Z)
  : MergeTreeIndexGranularity :=
  {| marks_rows := marks_rows ig ++ [rows]; initialized := initialized ig |}.

(** Modelled from the spec: [resizeWithFixedGranularity] fills the table by
    repeating the fixed granularity for every mark. *)
Definition resizeWithFixedGranularity (ig : MergeTreeIndexGranularity)
    (size fixed_granularity : Z) : MergeTreeIndexGranularity :=
  {| marks_rows := repeat fixed_granularity (Z.to_nat size);
     initialized := initialized ig |}.

(** Modelled from the spec: [setInitialized] ends the transient state of
    the table during load. *)
Definition setInitialized (ig : MergeTreeIndexGranularity)
  : MergeTreeIndexGranularity :=
  {| marks_rows := marks_rows ig; initialized := true |}.

(** Modelled from the spec: the mark count is the number of entries of the
    table. *)
Definition getMarksCount (ig : MergeTreeIndexGranularity) : Z :=
  Z.of_nat (length (marks_rows ig)).

(** Modelled from the spec: the mark record size is 16 bytes if the format
    is non-adaptive, else 24. *)
Definition getMarkSizeInBytes (info : MergeTreeIndexGranularityInfo) : Z :=
  if adaptive (mark_type info) then 24 else 16.

(** Modelled from the spec: the storage location of a part supports an
    existence check, a file size query and reading a file by path, and
    returns byte-exact files. *)
Record IDataPartStorage := mkStorage {
  getFullPath : string;
  storage_files : gmap string (list byte)
}.

Definition exists_ (st : IDataPartStorage) (path : string) : bool :=
  bool_decide (is_Some (storage_files st !! path)).

Definition getFileSize (st : IDataPartStorage) (path : string) : Except Z :=
  match storage_files st !! path with
  | Some content => Ok (Z.of_nat (length content))
  | None => Throw (mkException FILE_DOESNT_EXIST "File {} does not exist" [ArgStr path])
  end.

Definition readFile (st : IDataPartStorage) (path : string) : Except (list byte) :=
  match storage_files st !! path with
  | Some content => Ok content
  | None => Throw (mkException FILE_DOESNT_EXIST "File {} does not exist" [ArgStr path])
  end.

(** ** Reading binary values *)

(** [reader.eof()]. *)
Definition eof (reader : list byte) : bool :=
  match reader with [] => true | _ => false end.

(** Modelled from the spec: [readBinary] of a [UInt64] ([readIntBinary] is
    the same function for integers) reads eight bytes, little-endian; a
    shorter rest is an exception. *)
Definition readBinary (reader : list byte) : Except (Z * list byte) :=
  if decide (8 <= length reader)%nat
  then Ok (le_combine (firstn 8 reader), skipn 8 reader)
  else Throw (mkException CANNOT_READ_ALL_DATA
                "Cannot read all data. Bytes read: {}. Bytes expected: {}."
                [ArgNum (Z.of_nat (length reader)); ArgNum 8]).

Definition readIntBinary := readBinary.

(** ** Columns, serializations and the part *)

(** What the code asks of the type of a column. *)
Record IDataType := mkDataType {
  isValueRepresentedByNumber : bool;
  haveSubtypes : bool;
  getSizeOfValueInMemory : Z
}.

Record NameAndTypePair := mkColumn {
  name : string;
  type : IDataType
}.

(** Modelled from the spec: a substream is a named physical decomposition of
    a column's serialized representation (values, offsets, sizes, null
    flags); a path is a sequence of them. *)
Inductive Substream := Values | Offsets | Sizes | NullFlags.
Definition SubstreamPath := list Substream.

Inductive Kind := DEFAULT | SPARSE.

#[global] Instance Kind_eq_dec : EqDecision Kind.
Proof. solve_decision. Defined.

(** A serialization is what the code asks of it: the paths that
    [enumerateStreams] passes to its callback, in order, and [getKind]. *)
Record ISerialization := mkSerialization {
  streams : list SubstreamPath;
  getKind : Kind
}.

(** [enumerateStreams] with a callback that updates captured variables. *)
Definition enumerateStreams {S : Type} (ser : ISerialization)
    (callback : S -> SubstreamPath -> S) (s : S) : S :=
  fold_left callback (streams ser) s.

(** [enumerateStreams] with a callback that may throw. *)
Definition enumerateStreamsM {S : Type} (ser : ISerialization)
    (callback : S -> SubstreamPath -> Except S) (s : S) : Except S :=
  foldM callback s (streams ser).

(** Modelled from the spec: a size is the mark bytes, the compressed bytes
    and the uncompressed bytes. *)
Record ColumnSize := mkColumnSize {
  marks : Z;
  data_compressed : Z;
  data_uncompressed : Z
}.

Definition ColumnSize_zero : ColumnSize := mkColumnSize 0 0 0.

(** Modelled from the spec: [ColumnSize::add] is the component-wise sum, in
    [size_t] arithmetic. *)
Definition ColumnSize_add (a other : ColumnSize) : ColumnSize :=
  {| marks := wrap64 (marks a + marks other);
     data_compressed := wrap64 (data_compressed a + data_compressed other);
     data_uncompressed := wrap64 (data_uncompressed a + data_uncompressed other) |}.

Record MergeTreeDataPartWide := mkPart {
  part_name : string;
  columns : list NameAndTypePair;
  getSerialization : string -> ISerialization;
  checksums : MergeTreeDataPartChecksums;
  index_granularity : MergeTreeIndexGranularity;
  index_granularity_info : MergeTreeIndexGranularityInfo;
  rows_count : Z;
  getDataPartStorage : IDataPartStorage
}.

(** ** What the file takes from elsewhere

    Functions, constants and the build flag that [MergeTreeDataPartWide.cpp]
    uses and does not define.  Every theorem holds for all of them. *)
Class Collaborators := {
  (** whether the [NDEBUG] macro is defined (a release build) *)
  NDEBUG : bool;
  DATA_FILE_EXTENSION : string;
  getFileNameForStream : NameAndTypePair -> SubstreamPath -> string;
  getFileNameOrHash : MergeTreeDataPartChecksums -> string -> string;
  sipHash128String : string -> string;
  getFileExtension : MarkType -> string;
  getMarksFilePath : MergeTreeIndexGranularityInfo -> string -> string;
  changeGranularityIfRequired :
    MergeTreeIndexGranularityInfo -> IDataPartStorage -> MergeTreeIndexGranularityInfo;
  (** the whole content read through the decompressing reader *)
  CompressedReadBufferFromFile : list byte -> Except (list byte);
  checkConsistencyBase : MergeTreeDataPartWide -> Except unit;
  (** [fs::path(a) / b] as a string *)
  path_join : string -> string -> string;
  backQuote : string -> string
}.

Section Part.
Context `{Collaborators}.

(** Modelled from the spec: [getMarksFileExtension] is declared outside the
    file; the extension is determined by the mark-format descriptor stored
    at the part level. *)
Definition getMarksFileExtension (p : MergeTreeDataPartWide) : string :=
  getFileExtension (mark_type (index_granularity_info p)).

(** *** getColumnSizeImpl *)

(** The part of the callback after the check of [processed_substreams]. *)
Definition addStreamSize (p : MergeTreeDataPartWide) (size : ColumnSize)
    (stream_name : string) : ColumnSize :=
  let size :=
    match files (checksums p) !! (stream_name ++ ".bin") with
    | Some bin_checksum =>
        {| marks := marks size;
           data_compressed := wrap64 (data_compressed size + file_size bin_checksum);
           data_uncompressed :=
             wrap64 (data_uncompressed size + uncompressed_size bin_checksum) |}
    | None => size
    end in
  match files (checksums p) !! (stream_name ++ getMarksFileExtension p) with
  | Some mrk_checksum =>
      {| marks := wrap64 (marks size + file_size mrk_checksum);
         data_compressed := data_compressed size;
         data_uncompressed := data_uncompressed size |}
  | None => size
  end.

(** The callback: the state is [size] and the set behind
    [processed_substreams] ([None] is the null pointer). *)
Definition getColumnSizeImpl_callback (p : MergeTreeDataPartWide)
    (column : NameAndTypePair) (st : ColumnSize * option (gset string))
    (substream_path : SubstreamPath) : ColumnSize * option (gset string) :=
  let '(size, processed_substreams) := st in
  let full_stream_name := getFileNameForStream column substream_path in
  let stream_name := getFileNameOrHash (checksums p) full_stream_name in
  match processed_substreams with
  | Some processed =>
      if decide (stream_name ∈ processed)
      then (size, Some processed)
      else (addStreamSize p size stream_name, Some ({[stream_name]} ∪ processed))
  | None => (addStreamSize p size stream_name, None)
  end.

Definition getColumnSizeImpl (p : MergeTreeDataPartWide) (column : NameAndTypePair)
    (processed_substreams : option (gset string))
  : ColumnSize * option (gset string) :=
  if checksums_empty (checksums p)
  then (ColumnSize_zero, processed_substreams)
  else enumerateStreams (getSerialization p (name column))
         (getColumnSizeImpl_callback p column)
         (ColumnSize_zero, processed_substreams).

(** *** loadIndexGranularityImpl *)

(** The [while (!marks_reader->eof())] loop.  Every turn consumes at least
    sixteen bytes or throws, so [fuel] above the length of the reader is
    never used up; [loadIndexGranularityImpl] passes such a fuel. *)
Fixpoint readMarks (fuel : nat) (is_adaptive : bool) (marks_reader : list byte)
    (marks_count : Z) (index_granularity_ : MergeTreeIndexGranularity)
  : Except (Z * MergeTreeIndexGranularity) :=
  if eof marks_reader then Ok (marks_count, index_granularity_)
  else
    match fuel with
    | O => Ok (marks_count, index_granularity_)
    | S fuel =>
        '(offset_in_compressed_file, marks_reader) ← readBinary marks_reader;
        '(offset_in_decompressed_block, marks_reader) ← readBinary marks_reader;
        let marks_count := wrap64 (marks_count + 1) in
        if is_adaptive then
          '(granularity, marks_reader) ← readIntBinary marks_reader;
          readMarks fuel is_adaptive marks_reader marks_count
            (appendMark index_granularity_ granularity)
        else
          readMarks fuel is_adaptive marks_reader marks_count index_granularity_
    end.

Definition loadIndexGranularityImpl
    (index_granularity_ : MergeTreeIndexGranularity)
    (index_granularity_info_ : MergeTreeIndexGranularityInfo)
    (data_part_storage_ : IDataPartStorage) (any_column_file_name : string)
  : Except (MergeTreeIndexGranularity * MergeTreeIndexGranularityInfo) :=
  let index_granularity_info_ :=
    changeGranularityIfRequired index_granularity_info_ data_part_storage_ in
  let marks_file_path := getMarksFilePath index_granularity_info_ any_column_file_name in
  if negb (exists_ data_part_storage_ marks_file_path) then
    Throw (mkException NO_FILE_IN_DATA_PART "Marks file '{}' doesn't exist"
             [ArgStr (path_join (getFullPath data_part_storage_) marks_file_path)])
  else
    marks_file_size ← getFileSize data_part_storage_ marks_file_path;
    index_granularity_ ←
      (if negb (adaptive (mark_type index_granularity_info_))
          && negb (compressed (mark_type index_granularity_info_))
       then
         let marks_count := marks_file_size / getMarkSizeInBytes index_granularity_info_ in
         Ok (resizeWithFixedGranularity index_granularity_ marks_count
               (fixed_index_granularity index_granularity_info_))
       else
         marks_file ← readFile data_part_storage_ marks_file_path;
         marks_reader ←
           (if negb (compressed (mark_type index_granularity_info_))
            then Ok marks_file
            else CompressedReadBufferFromFile marks_file);
         '(marks_count, index_granularity_) ←
           readMarks (S (length marks_reader))
             (adaptive (mark_type index_granularity_info_))
             marks_reader 0 index_granularity_;
         if negb (adaptive (mark_type index_granularity_info_))
         then Ok (resizeWithFixedGranularity index_granularity_ marks_count
                    (fixed_index_granularity index_granularity_info_))
         else Ok index_granularity_);
    Ok (setInitialized index_granularity_, index_granularity_info_).

(** *** getFileNameForColumn *)

Definition getFileNameForColumn (p : MergeTreeDataPartWide) (column : NameAndTypePair)
  : string :=
  enumerateStreams (getSerialization p (name column))
    (fun (filename : string) substream_path =>
       if bool_decide (filename = "")
       then
         let full_stream_name := getFileNameForStream column substream_path in
         getFileNameOrHash (checksums p) full_stream_name
       else filename)
    "".

(** *** loadIndexGranularity *)

(** The part after a successful load carries the new table and the new
    granularity info; a throw leaves no loaded part. *)
Definition loadIndexGranularity (p : MergeTreeDataPartWide)
  : Except MergeTreeDataPartWide :=
  match columns p with
  | [] => Throw (mkException NO_FILE_IN_DATA_PART "No columns in part {}"
                   [ArgStr (part_name p)])
  | front :: _ =>
      '(ig, info) ← loadIndexGranularityImpl (index_granularity p)
                      (index_granularity_info p) (getDataPartStorage p)
                      (getFileNameForColumn p front);
      Ok {| part_name := part_name p;
            columns := columns p;
            getSerialization := getSerialization p;
            checksums := checksums p;
            index_granularity := ig;
            index_granularity_info := info;
            rows_count := rows_count p;
            getDataPartStorage := getDataPartStorage p |}
  end.

(** *** checkConsistency *)

(** The callback of the branch with checksums and [require_part_metadata]. *)
Definition checkConsistency_checksums_callback (p : MergeTreeDataPartWide)
    (marks_file_extension : string) (name_type : NameAndTypePair)
    (_ : unit) (substream_path : SubstreamPath) : Except unit :=
  let full_stream_name := getFileNameForStream name_type substream_path in
  let stream_name := getFileNameOrHash (checksums p) full_stream_name in
  let mrk_file_name := stream_name ++ marks_file_extension in
  let bin_file_name := stream_name ++ DATA_FILE_EXTENSION in
  if negb (files_contains (checksums p) mrk_file_name) then
    Throw (mkException NO_FILE_IN_DATA_PART
             "No {} file checksum for column {} in part {} "
             [ArgStr mrk_file_name; ArgStr (name name_type);
              ArgStr (getFullPath (getDataPartStorage p))])
  else if negb (files_contains (checksums p) bin_file_name) then
    Throw (mkException NO_FILE_IN_DATA_PART
             "No {} file checksum for column {} in part {}"
             [ArgStr bin_file_name; ArgStr (name name_type);
              ArgStr (getFullPath (getDataPartStorage p))])
  else Ok tt.

(** The path that the branch without checksums probes for a stream: the
    literal name, else the hash of that path with the extension again. *)
Definition probedMarksFile (p : MergeTreeDataPartWide) (marks_file_extension : string)
    (name_type : NameAndTypePair) (substream_path : SubstreamPath) : string :=
  let file_path := getFileNameForStream name_type substream_path ++ marks_file_extension in
  if negb (exists_ (getDataPartStorage p) file_path)
  then sipHash128String file_path ++ marks_file_extension
  else file_path.

(** The callback of the branch without checksums; the state is
    [marks_size]. *)
Definition checkConsistency_marks_callback (p : MergeTreeDataPartWide)
    (marks_file_extension : string) (name_type : NameAndTypePair)
    (marks_size : option Z) (substream_path : SubstreamPath) : Except (option Z) :=
  let file_path := probedMarksFile p marks_file_extension name_type substream_path in
  if exists_ (getDataPartStorage p) file_path then
    file_size ← getFileSize (getDataPartStorage p) file_path;
    if bool_decide (file_size = 0) then
      Throw (mkException BAD_SIZE_OF_FILE_IN_DATA_PART
               "Part {} is broken: {} is empty."
               [ArgStr (getFullPath (getDataPartStorage p));
                ArgStr (path_join (getFullPath (getDataPartStorage p)) file_path)])
    else
      match marks_size with
      | None => Ok (Some file_size)
      | Some size =>
          if negb (bool_decide (file_size = size)) then
            Throw (mkException BAD_SIZE_OF_FILE_IN_DATA_PART
                     "Part {} is broken: marks have different sizes."
                     [ArgStr (getFullPath (getDataPartStorage p))])
          else Ok marks_size
      end
  else Ok marks_size.

Definition checkConsistency (p : MergeTreeDataPartWide) (require_part_metadata : bool)
  : Except unit :=
  checkConsistencyBase p;;
  let marks_file_extension := getFileExtension (mark_type (index_granularity_info p)) in
  if negb (checksums_empty (checksums p)) then
    if require_part_metadata then
      foldM (fun (_ : unit) name_type =>
               enumerateStreamsM (getSerialization p (name name_type))
                 (checkConsistency_checksums_callback p marks_file_extension name_type) tt)
            tt (columns p)
    else Ok tt
  else
    foldM (fun (marks_size : option Z) name_type =>
             enumerateStreamsM (getSerialization p (name name_type))
               (checkConsistency_marks_callback p marks_file_extension name_type)
               marks_size)
          None (columns p);;
    Ok tt.

(** *** hasColumnFiles *)

Definition check_stream_exists (p : MergeTreeDataPartWide)
    (marks_file_extension stream_name : string) : bool :=
  files_contains (checksums p) (stream_name ++ DATA_FILE_EXTENSION)
  && files_contains (checksums p) (stream_name ++ marks_file_extension).

Definition hasColumnFiles (p : MergeTreeDataPartWide) (column : NameAndTypePair) : bool :=
  let marks_file_extension := getFileExtension (mark_type (index_granularity_info p)) in
  enumerateStreams (getSerialization p (name column))
    (fun (res : bool) substream_path =>
       let file_name := getFileNameForStream column substream_path in
       if negb (check_stream_exists p marks_file_extension file_name)
       then false
       else res)
    true.

(** *** calculateEachColumnSizes *)

(** The condition of the check under [#ifndef NDEBUG]: the most trivial
    types. *)
Definition isTrivialColumn (p : MergeTreeDataPartWide) (column : NameAndTypePair) : bool :=
  negb (bool_decide (rows_count p = 0))
  && isValueRepresentedByNumber (type column)
  && negb (haveSubtypes (type column))
  && bool_decide (getKind (getSerialization p (name column)) = DEFAULT).

(** The loop body; the state is [processed_substreams], [each_columns_size]
    and [total_size]. *)
Definition calculateEachColumnSizes_body (p : MergeTreeDataPartWide)
    (st : gset string * gmap string ColumnSize * ColumnSize)
    (column : NameAndTypePair)
  : Except (gset string * gmap string ColumnSize * ColumnSize) :=
  let '(processed_substreams, each_columns_size, total_size) := st in
  let '(size, processed) := getColumnSizeImpl p column (Some processed_substreams) in
  let processed_substreams := default processed_substreams processed in
  let each_columns_size := <[name column := size]> each_columns_size in
  let total_size := ColumnSize_add total_size size in
  if negb NDEBUG && isTrivialColumn p column then
    let rows_in_column :=
      data_uncompressed size / getSizeOfValueInMemory (type column) in
    if negb (bool_decide (rows_in_column = rows_count p)) then
      Throw (mkException LOGICAL_ERROR
               "Column {} has rows count {} according to size in memory and size of single value, but data part {} has {} rows"
               [ArgStr (backQuote (name column)); ArgNum rows_in_column;
                ArgStr (part_name p); ArgNum (rows_count p)])
    else Ok (processed_substreams, each_columns_size, total_size)
  else Ok (processed_substreams, each_columns_size, total_size).

Definition calculateEachColumnSizes (p : MergeTreeDataPartWide)
    (each_columns_size : gmap string ColumnSize) (total_size : ColumnSize)
  : Except (gmap string ColumnSize * ColumnSize) :=
  '(_, each_columns_size, total_size) ←
    foldM (calculateEachColumnSizes_body p) (∅, each_columns_size, total_size)
      (columns p);
  Ok (each_columns_size, total_size).

End Part.

(** ** The on-disk mark file format *)

(** One record of a mark file: the two offsets of [MarkInCompressedFile] and
    the row count of the mark. *)
Record MarkRecord := mkMark {
  offset_in_compressed_file : Z;
  offset_in_decompressed_block : Z;
  granularity : Z
}.

(** Modelled from the spec: a mark file is a sequence of fixed-size
    little-endian records, each an 8-byte offset in the compressed stream,
    an 8-byte offset in the decompressed block and, only if the format is
    adaptive, an 8-byte row-granularity count. *)
Definition encodeMark (is_adaptive : bool) (m : MarkRecord) : list byte :=
  le_split 8 (offset_in_compressed_file m)
  ++ le_split 8 (offset_in_decompressed_block m)
  ++ (if is_adaptive then le_split 8 (granularity m) else []).

Definition encodeMarks (is_adaptive : bool) (ms : list MarkRecord) : list byte :=
  concat (map (encodeMark is_adaptive) ms).

Definition isUInt64 (z : Z) : Prop := 0 <= z < 2 ^ 64.

(** The table after the marks [ms] were appended one by one. *)
Definition appendMarks (ig : MergeTreeIndexGranularity) (ms : list MarkRecord)
  : MergeTreeIndexGranularity :=
  {| marks_rows := marks_rows ig ++ map (fun m => wrap64 (granularity m)) ms;
     initialized := initialized ig |}.

(** ** Notions used to state the properties *)

(** What the loop over the mark files does with their sizes: [None] stands
    for a mark file that does not exist. *)
Definition checkMarksSize (throw_empty throw_different : Exception)
    (marks_size : option Z) (file_size : option Z) : Except (option Z) :=
  match file_size with
  | None => Ok marks_size
  | Some file_size =>
      if bool_decide (file_size = 0) then Throw throw_empty
      else match marks_size with
           | None => Ok (Some file_size)
           | Some size =>
               if negb (bool_decide (file_size = size)) then Throw throw_different
               else Ok marks_size
           end
  end.

(** All sizes are non-zero and equal to [marks_size], or to the first of
    them when there is no [marks_size] yet. *)
Fixpoint uniformSizes (marks_size : option Z) (sizes : list Z) : bool :=
  match sizes with
  | [] => true
  | file_size :: sizes =>
      negb (bool_decide (file_size = 0))
      && match marks_size with
         | None => uniformSizes (Some file_size) sizes
         | Some size => bool_decide (file_size = size) && uniformSizes marks_size sizes
         end
  end.

(** The sum of [f] over the elements of [X], each element once. *)
Definition setSum (f : string -> Z) (X : gset string) : Z :=
  set_fold (fun n acc => f n + acc) 0 X.

Definition sumZ (l : list Z) : Z := foldr Z.add 0 l.

(** A size whose three totals are the given sums, in [size_t]. *)
Definition wrapSize (m c u : Z) : ColumnSize :=
  {| marks := wrap64 m; data_compressed := wrap64 c; data_uncompressed := wrap64 u |}.

Section Specification.
Context `{Collaborators}.

(** The pairs of a column of the part and one of its enumerated streams, in
    the order the loops visit them. *)
Definition columnStreams (p : MergeTreeDataPartWide)
  : list (NameAndTypePair * SubstreamPath) :=
  flat_map (fun column => map (pair column) (streams (getSerialization p (name column))))
    (columns p).

(** The stream name under which the checksums register a stream. *)
Definition resolvedStreamName (p : MergeTreeDataPartWide) (column : NameAndTypePair)
    (substream_path : SubstreamPath) : string :=
  getFileNameOrHash (checksums p) (getFileNameForStream column substream_path).

Definition marksChecksumName (p : MergeTreeDataPartWide) (column : NameAndTypePair)
    (substream_path : SubstreamPath) : string :=
  resolvedStreamName p column substream_path
  ++ getFileExtension (mark_type (index_granularity_info p)).

Definition dataChecksumName (p : MergeTreeDataPartWide) (column : NameAndTypePair)
    (substream_path : SubstreamPath) : string :=
  resolvedStreamName p column substream_path ++ DATA_FILE_EXTENSION.

(** The stream has its mark-file checksum entry, its data-file entry. *)
Definition hasMarksChecksum (p : MergeTreeDataPartWide) (column : NameAndTypePair)
    (substream_path : SubstreamPath) : Prop :=
  is_Some (files (checksums p) !! marksChecksumName p column substream_path).

Definition hasDataChecksum (p : MergeTreeDataPartWide) (column : NameAndTypePair)
    (substream_path : SubstreamPath) : Prop :=
  is_Some (files (checksums p) !! dataChecksumName p column substream_path).

(** The size of the mark file of a stream, when it exists. *)
Definition marksFileSize (p : MergeTreeDataPartWide)
    (cs : NameAndTypePair * SubstreamPath) : option Z :=
  content ← storage_files (getDataPartStorage p)
              !! probedMarksFile p (getFileExtension (mark_type (index_granularity_info p)))
                   (fst cs) (snd cs);
  Some (Z.of_nat (length content)).

(** The sizes of the mark files of the part that exist, over the
    enumerated streams of all columns. *)
Definition existingMarksSizes (p : MergeTreeDataPartWide) : list Z :=
  omap (marksFileSize p) (columnStreams p).

Definition emptyMarksException (p : MergeTreeDataPartWide) (file_path : string)
  : Exception :=
  mkException BAD_SIZE_OF_FILE_IN_DATA_PART "Part {} is broken: {} is empty."
    [ArgStr (getFullPath (getDataPartStorage p));
     ArgStr (path_join (getFullPath (getDataPartStorage p)) file_path)].

Definition differentMarksException (p : MergeTreeDataPartWide) : Exception :=
  mkException BAD_SIZE_OF_FILE_IN_DATA_PART
    "Part {} is broken: marks have different sizes."
    [ArgStr (getFullPath (getDataPartStorage p))].

(** The bytes that the checksums record for a stream name. *)
Definition marksBytes (p : MergeTreeDataPartWide) (stream_name : string) : Z :=
  match files (checksums p) !! (stream_name ++ getMarksFileExtension p) with
  | Some mrk_checksum => file_size mrk_checksum
  | None => 0
  end.

Definition compressedBytes (p : MergeTreeDataPartWide) (stream_name : string) : Z :=
  match files (checksums p) !! (stream_name ++ ".bin") with
  | Some bin_checksum => file_size bin_checksum
  | None => 0
  end.

Definition uncompressedBytes (p : MergeTreeDataPartWide) (stream_name : string) : Z :=
  match files (checksums p) !! (stream_name ++ ".bin") with
  | Some bin_checksum => uncompressed_size bin_checksum
  | None => 0
  end.

(** The size of a set of streams: the bytes of each stream once. *)
Definition sizeOfStreams (p : MergeTreeDataPartWide) (X : gset string) : ColumnSize :=
  wrapSize (setSum (marksBytes p) X) (setSum (compressedBytes p) X)
    (setSum (uncompressedBytes p) X).

(** The resolved names of the streams that a column enumerates, and of the
    streams of a list of columns. *)
Definition streamNames (p : MergeTreeDataPartWide) (column : NameAndTypePair)
  : gset string :=
  list_to_set (map (resolvedStreamName p column)
                 (streams (getSerialization p (name column)))).

Definition streamNamesOf (p : MergeTreeDataPartWide) (cols : list NameAndTypePair)
  : gset string :=
  ⋃ (map (streamNames p) cols).

(** The sizes that the loop of [calculateEachColumnSizes] gets from
    [getColumnSizeImpl], column by column, when it starts with the set
    [processed_substreams]. *)
Fixpoint columnSizesFrom (p : MergeTreeDataPartWide) (processed_substreams : gset string)
    (cols : list NameAndTypePair) : list (NameAndTypePair * ColumnSize) :=
  match cols with
  | [] => []
  | column :: cols =>
      let '(size, processed) := getColumnSizeImpl p column (Some processed_substreams) in
      (column, size) :: columnSizesFrom p (default processed_substreams processed) cols
  end.

Definition passSizes (p : MergeTreeDataPartWide) : list (NameAndTypePair * ColumnSize) :=
  columnSizesFrom p ∅ (columns p).

(** [each_columns_size[column.name] = size], for the sizes in turn. *)
Definition insertSizes (each_columns_size : gmap string ColumnSize)
    (sizes : list (NameAndTypePair * ColumnSize)) : gmap string ColumnSize :=
  fold_left (fun each cs => <[name (fst cs) := snd cs]> each) sizes each_columns_size.

Definition rowsInColumn (cs : NameAndTypePair * ColumnSize) : Z :=
  data_uncompressed (snd cs) / getSizeOfValueInMemory (type (fst cs)).

(** The debug check fails for a column and its size. *)
Definition rowsMismatch (p : MergeTreeDataPartWide) (cs : NameAndTypePair * ColumnSize)
  : bool :=
  negb NDEBUG && isTrivialColumn p (fst cs)
  && negb (bool_decide (rowsInColumn cs = rows_count p)).

Definition rowsException (p : MergeTreeDataPartWide) (cs : NameAndTypePair * ColumnSize)
  : Exception :=
  mkException LOGICAL_ERROR
    "Column {} has rows count {} according to size in memory and size of single value, but data part {} has {} rows"
    [ArgStr (backQuote (name (fst cs))); ArgNum (rowsInColumn cs);
     ArgStr (part_name p); ArgNum (rows_count p)].

(** The sizes of the columns [cols] when each stream is counted for the
    first column that enumerates it; [seen] are the streams of earlier
    columns. *)
Fixpoint dedupSizes (p : MergeTreeDataPartWide) (seen : gset string)
    (cols : list NameAndTypePair) : list (NameAndTypePair * ColumnSize) :=
  match cols with
  | [] => []
  | column :: cols =>
      (column, sizeOfStreams p (streamNames p column ∖ seen))
      :: dedupSizes p (streamNames p column ∪ seen) cols
  end.

(** The claims about [calculateEachColumnSizes] as they are worded. *)

(** Every column's recorded size counts all the streams that the column
    enumerates, shared ones included, while the total counts each stream
    once. *)
Definition sharedStreamsClaim (p : MergeTreeDataPartWide) : Prop :=
  forall each total,
    calculateEachColumnSizes p ∅ ColumnSize_zero = Ok (each, total) ->
    total = sizeOfStreams p (streamNamesOf p (columns p))
    /\ forall column, column ∈ columns p ->
         each !! name column = Some (sizeOfStreams p (streamNames p column)).

(** Every mismatch of the derived row count of a trivial column raises the
    internal-consistency error. *)
Definition rowsCheckClaim (p : MergeTreeDataPartWide) : Prop :=
  forall column size,
    (column, size) ∈ passSizes p ->
    isValueRepresentedByNumber (type column) = true ->
    haveSubtypes (type column) = false ->
    getKind (getSerialization p (name column)) = DEFAULT ->
    data_uncompressed size / getSizeOfValueInMemory (type column) <> rows_count p ->
    exists e, calculateEachColumnSizes p ∅ ColumnSize_zero = Throw e
              /\ code e = LOGICAL_ERROR.

End Specification.

(** ** Further notions *)

(** The part with another list of columns. *)
Definition withColumns (p : MergeTreeDataPartWide) (cols : list NameAndTypePair)
  : MergeTreeDataPartWide :=
  {| part_name := part_name p;
     columns := cols;
     getSerialization := getSerialization p;
     checksums := checksums p;
     index_granularity := index_granularity p;
     index_granularity_info := index_granularity_info p;
     rows_count := rows_count p;
     getDataPartStorage := getDataPartStorage p |}.

(** The three totals of a size are in the range of [size_t]. *)
Definition ColumnSize_valid (size : ColumnSize) : Prop :=
  isUInt64 (marks size) /\ isUInt64 (data_compressed size)
  /\ isUInt64 (data_uncompressed size).

Section FurtherSpecification.
Context `{Collaborators}.

(** The resolved names of the streams of a column in the order of the
    enumeration, a name as often as it is enumerated. *)
Definition streamNameList (p : MergeTreeDataPartWide) (column : NameAndTypePair)
  : list string :=
  map (resolvedStreamName p column) (streams (getSerialization p (name column))).

(** The stream has both checksum entries under the name that
    [getFileNameForStream] gives. *)
Definition hasLiteralChecksums (p : MergeTreeDataPartWide) (column : NameAndTypePair)
    (substream_path : SubstreamPath) : Prop :=
  is_Some (files (checksums p)
             !! (getFileNameForStream column substream_path ++ DATA_FILE_EXTENSION))
  /\ is_Some (files (checksums p)
               !! (getFileNameForStream column substream_path
                   ++ getFileExtension (mark_type (index_granularity_info p)))).

(** The exceptions of the check with [require_part_metadata]. *)
Definition noMarksChecksumException (p : MergeTreeDataPartWide)
    (column : NameAndTypePair) (substream_path : SubstreamPath) : Exception :=
  mkException NO_FILE_IN_DATA_PART "No {} file checksum for column {} in part {} "
    [ArgStr (marksChecksumName p column substream_path); ArgStr (name column);
     ArgStr (getFullPath (getDataPartStorage p))].

Definition noDataChecksumException (p : MergeTreeDataPartWide)
    (column : NameAndTypePair) (substream_path : SubstreamPath) : Exception :=
  mkException NO_FILE_IN_DATA_PART "No {} file checksum for column {} in part {}"
    [ArgStr (dataChecksumName p column substream_path); ArgStr (name column);
     ArgStr (getFullPath (getDataPartStorage p))].

End FurtherSpecification.

(** ** CompressionCodecZSTDQAT: the registration of the codec *)

Module CodecZSTDQAT.

(** The error codes of the file; [OTHER_CODE] is a code of an exception
    raised outside it. *)
Inductive CodecErrorCode :=
| CANNOT_COMPRESS
| ILLEGAL_SYNTAX_FOR_CODEC_TYPE
| ILLEGAL_CODEC_PARAMETER
| OTHER_CODE (n : Z).

Record CodecException := mkCodecException {
  codec_code : CodecErrorCode;
  codec_format : string;
  codec_args : list FormatArg
}.

Inductive CodecExcept (A : Type) :=
| Returned (a : A)
| Raised (e : CodecException).
Arguments Returned {A} a.
Arguments Raised {A} e.

(** A child of the arguments node: [as<ASTLiteral>()] gives the literal with
    its value, or a null pointer. *)
Inductive ASTChild (Field : Type) :=
| Literal (value : Field)
| NotLiteral.
Arguments Literal {Field} value.
Arguments NotLiteral {Field}.

Definition ZSTDQAT_SUPPORTED_MIN_LEVEL : Z := 1.
Definition ZSTDQAT_SUPPORTED_MAX_LEVEL : Z := 12.

(** [static_cast<int>] of a [UInt64]: the low 32 bits, as a signed number. *)
Definition toInt (v : Z) : Z :=
  let low := v mod 2 ^ 32 in
  if (low <? 2 ^ 31)%Z then low else low - 2 ^ 32.

(** The codec, as far as the registration decides it: its level. *)
Record CompressionCodecZSTDQAT := mkCodec {
  level : Z
}.

Section Registration.
(** [Field] with [safeGet<UInt64>], and the default level of
    [CompressionCodecZSTD], are declared outside the file. *)
Variable Field : Type.
Variable safeGetUInt64 : Field -> CodecExcept Z.
Variable ZSTD_DEFAULT_LEVEL : Z.

(** The function that [registerCodecZSTDQAT] registers under "ZSTD_QAT";
    [arguments] is [None] for a null pointer and else the children. *)
Definition registerCodecZSTDQAT (arguments : option (list (ASTChild Field)))
  : CodecExcept CompressionCodecZSTDQAT :=
  match arguments with
  | Some (child :: others) =>
      let children := child :: others in
      if (1 <? length children)%nat then
        Raised (mkCodecException ILLEGAL_SYNTAX_FOR_CODEC_TYPE
                  "ZSTD_QAT codec must have 1 parameter, given {}"
                  [ArgNum (Z.of_nat (length children))])
      else
        match child with
        | NotLiteral =>
            Raised (mkCodecException ILLEGAL_CODEC_PARAMETER
                      "ZSTD_QAT codec argument must be integer" [])
        | Literal value =>
            match safeGetUInt64 value with
            | Raised e => Raised e
            | Returned v =>
                let level := toInt v in
                if (level <? ZSTDQAT_SUPPORTED_MIN_LEVEL)%Z
                   || (ZSTDQAT_SUPPORTED_MAX_LEVEL <? level)%Z
                then
                  Raised (mkCodecException ILLEGAL_CODEC_PARAMETER
                            "ZSTDQAT codec doesn't support level more than {} and lower than {} , given {}"
                            [ArgNum ZSTDQAT_SUPPORTED_MAX_LEVEL;
                             ArgNum ZSTDQAT_SUPPORTED_MIN_LEVEL; ArgNum level])
                else Returned (mkCodec level)
            end
        end
  | _ => Returned (mkCodec ZSTD_DEFAULT_LEVEL)
  end.

End Registration.

End CodecZSTDQAT.

(** ** Scenarios

    Concrete collaborators and parts, on which the theorems are applied. *)

Module Scenarios.

(** Test doubles for what the file takes from elsewhere: a debug build,
    literal file names built from the column and the substreams (the sizes
    of a nested table are one stream for all its columns), a stand-in for
    the hash, and a resolver that keeps a name registered in the checksums
    and hashes any other. *)
Definition tableName (column_name : string) : string :=
  match index 0 "." column_name with
  | Some n => substring 0 n column_name
  | None => column_name
  end.

Definition substreamSuffix (s : Substream) : string :=
  match s with
  | Values => ""
  | Offsets => ".offsets"
  | Sizes => ".size0"
  | NullFlags => ".null"
  end.

Definition scenarioFileNameForStream (column : NameAndTypePair)
    (substream_path : SubstreamPath) : string :=
  match substream_path with
  | [Sizes] => tableName (name column) ++ ".size0"
  | _ => name column ++ String.concat "" (map substreamSuffix substream_path)
  end.

Definition scenarioHash (s : string) : string := "siphash(" ++ s ++ ")".

Definition scenarioFileExtension (mt : MarkType) : string :=
  (if compressed mt then ".c" else ".")
  ++ (if adaptive mt then "mrk2" else "mrk").

Definition scenario : Collaborators := {|
  NDEBUG := false;
  DATA_FILE_EXTENSION := ".bin";
  getFileNameForStream := scenarioFileNameForStream;
  getFileNameOrHash := fun checksums name =>
    if files_contains checksums (name ++ ".bin") then name else scenarioHash name;
  sipHash128String := scenarioHash;
  getFileExtension := scenarioFileExtension;
  getMarksFilePath := fun info name => name ++ scenarioFileExtension (mark_type info);
  changeGranularityIfRequired := fun info _ => info;
  CompressedReadBufferFromFile := fun marks_file => Ok marks_file;
  checkConsistencyBase := fun _ => Ok tt;
  path_join := fun a b => a ++ "/" ++ b;
  backQuote := fun s => "`" ++ s ++ "`"
|}.

Definition UInt64 : IDataType :=
  {| isValueRepresentedByNumber := true; haveSubtypes := false;
     getSizeOfValueInMemory := 8 |}.

Definition ArrayUInt64 : IDataType :=
  {| isValueRepresentedByNumber := false; haveSubtypes := true;
     getSizeOfValueInMemory := 0 |}.

Definition numberSerialization : ISerialization :=
  {| streams := [[Values]]; getKind := DEFAULT |}.

Definition arraySerialization : ISerialization :=
  {| streams := [[Sizes]; [Values]]; getKind := DEFAULT |}.

Definition fixedInfo : MergeTreeIndexGranularityInfo :=
  {| mark_type := {| adaptive := false; compressed := false |};
     fixed_index_granularity := 8192 |}.

Definition adaptiveInfo : MergeTreeIndexGranularityInfo :=
  {| mark_type := {| adaptive := true; compressed := false |};
     fixed_index_granularity := 8192 |}.

Definition zeroMark : MarkRecord := mkMark 0 0 0.

(** Scenario A: one numeric column, fixed granularity 8192, three marks of
    16 bytes. *)
Definition storageA : IDataPartStorage :=
  {| getFullPath := "/data/all_1_1_0";
     storage_files := {[ "x.mrk" := encodeMarks false [zeroMark; zeroMark; zeroMark] ]} |}.

(** Scenario B: adaptive marks with the granularities 100, 250 and 17. *)
Definition marksB : list MarkRecord :=
  [mkMark 0 0 100; mkMark 0 800 250; mkMark 4096 0 17].

Definition storageB : IDataPartStorage :=
  {| getFullPath := "/data/all_2_2_0";
     storage_files := {[ "x.mrk2" := encodeMarks true marksB ]} |}.

Definition columnX : NameAndTypePair := {| name := "x"; type := UInt64 |}.
Definition columnY : NameAndTypePair := {| name := "y"; type := UInt64 |}.

Definition partOf (cols : list NameAndTypePair) (ser : string -> ISerialization)
    (sums : gmap string Checksum) (info : MergeTreeIndexGranularityInfo)
    (rows : Z) (storage : IDataPartStorage) : MergeTreeDataPartWide :=
  {| part_name := "all_1_1_0";
     columns := cols;
     getSerialization := ser;
     checksums := {| files := sums |};
     index_granularity := empty_granularity;
     index_granularity_info := info;
     rows_count := rows;
     getDataPartStorage := storage |}.

(** A part whose marks file is missing. *)
Definition emptyStorage : IDataPartStorage :=
  {| getFullPath := "/data/all_1_1_0"; storage_files := ∅ |}.

Definition partNoMarks : MergeTreeDataPartWide :=
  partOf [columnX] (fun _ => numberSerialization) ∅ adaptiveInfo 0 emptyStorage.

(** Scenario C: no checksums, mark files of 48 and 32 bytes. *)
Definition storageC : IDataPartStorage :=
  {| getFullPath := "/data/all_1_1_0";
     storage_files :=
       {[ "x.mrk" := encodeMarks false [zeroMark; zeroMark; zeroMark];
          "y.mrk" := encodeMarks false [zeroMark; zeroMark] ]} |}.

Definition partC : MergeTreeDataPartWide :=
  partOf [columnX; columnY] (fun _ => numberSerialization) ∅ fixedInfo 20000 storageC.

(** Scenario D: checksums present, the mark-file entry of [y] absent. *)
Definition partD : MergeTreeDataPartWide :=
  partOf [columnX; columnY] (fun _ => numberSerialization)
    {[ "x.bin" := mkChecksum 500 8000; "x.mrk2" := mkChecksum 72 72;
       "y.bin" := mkChecksum 400 8000 ]}
    adaptiveInfo 1000 emptyStorage.

(** Scenario E: a numeric column of 999 values in a part of 1000 rows. *)
Definition partE : MergeTreeDataPartWide :=
  partOf [columnX] (fun _ => numberSerialization)
    {[ "x.bin" := mkChecksum 500 7992; "x.mrk2" := mkChecksum 72 72 ]}
    adaptiveInfo 1000 emptyStorage.

(** The same checksums in a part without rows. *)
Definition partNoRows : MergeTreeDataPartWide :=
  partOf [columnX] (fun _ => numberSerialization)
    {[ "x.bin" := mkChecksum 500 7992; "x.mrk2" := mkChecksum 72 72 ]}
    adaptiveInfo 0 emptyStorage.

(** Two columns of a nested table that share the stream of the sizes. *)
Definition columnNA : NameAndTypePair := {| name := "n.a"; type := ArrayUInt64 |}.
Definition columnNB : NameAndTypePair := {| name := "n.b"; type := ArrayUInt64 |}.

Definition partNested : MergeTreeDataPartWide :=
  partOf [columnNA; columnNB] (fun _ => arraySerialization)
    {[ "n.size0.bin" := mkChecksum 10 80; "n.size0.mrk2" := mkChecksum 24 24;
       "n.a.bin" := mkChecksum 100 800; "n.a.mrk2" := mkChecksum 24 24;
       "n.b.bin" := mkChecksum 200 1600; "n.b.mrk2" := mkChecksum 24 24 ]}
    adaptiveInfo 10 emptyStorage.

(** A column whose files are registered under the hash of the stream
    name. *)
Definition columnLong : NameAndTypePair :=
  {| name := "a_column_with_a_very_long_name"; type := UInt64 |}.

Definition partHashed : MergeTreeDataPartWide :=
  partOf [columnLong] (fun _ => numberSerialization)
    {[ "siphash(a_column_with_a_very_long_name).bin" := mkChecksum 500 8000;
       "siphash(a_column_with_a_very_long_name).mrk2" := mkChecksum 72 72 ]}
    adaptiveInfo 1000 emptyStorage.

(** A nested column that enumerates the stream of its sizes twice. *)
Definition doubledSerialization : ISerialization :=
  {| streams := [[Sizes]; [Values]; [Sizes]]; getKind := DEFAULT |}.

Definition partDoubled : MergeTreeDataPartWide :=
  partOf [columnNA] (fun _ => doubledSerialization)
    {[ "n.size0.bin" := mkChecksum 10 80; "n.size0.mrk2" := mkChecksum 24 24;
       "n.a.bin" := mkChecksum 100 800; "n.a.mrk2" := mkChecksum 24 24 ]}
    adaptiveInfo 10 emptyStorage.

(** Scenario E without checksums. *)
Definition partNoChecksums : MergeTreeDataPartWide :=
  partOf [columnX] (fun _ => numberSerialization) ∅ adaptiveInfo 1000 emptyStorage.

(** A part without columns whose storage has a marks file. *)
Definition partNoColumns : MergeTreeDataPartWide :=
  partOf [] (fun _ => numberSerialization) ∅ adaptiveInfo 0 storageB.

(** A marks file of two records and five more bytes. *)
Definition storageRemainder : IDataPartStorage :=
  {| getFullPath := "/data/all_1_1_0";
     storage_files :=
       {[ "x.mrk" := (encodeMarks false [zeroMark; zeroMark]
                      ++ repeat Init.Byte.x00 5)%list ]} |}.

(** A table that already holds two marks. *)
Definition loadedGranularity : MergeTreeIndexGranularity :=
  {| marks_rows := [5; 6]; initialized := true |}.



(** Scenario D with all entries. *)
Definition partComplete : MergeTreeDataPartWide :=
  partOf [columnX; columnY] (fun _ => numberSerialization)
    {[ "x.bin" := mkChecksum 500 8000; "x.mrk2" := mkChecksum 72 72;
       "y.bin" := mkChecksum 400 8000; "y.mrk2" := mkChecksum 72 72 ]}
    adaptiveInfo 1000 emptyStorage.

(** Parts without checksums whose mark files are stored under the hash of
    the stream name, as [getFileNameOrHash] resolves it: sizes 48 and 32,
    and sizes 48 and 0. *)
Definition storageHashedMarks : IDataPartStorage :=
  {| getFullPath := "/data/all_1_1_0";
     storage_files :=
       {[ "siphash(x).mrk" := encodeMarks false [zeroMark; zeroMark; zeroMark];
          "siphash(y).mrk" := encodeMarks false [zeroMark; zeroMark] ]} |}.

Definition partHashedMarks : MergeTreeDataPartWide :=
  partOf [columnX; columnY] (fun _ => numberSerialization) ∅ fixedInfo 20000
    storageHashedMarks.

Definition storageHashedEmptyMarks : IDataPartStorage :=
  {| getFullPath := "/data/all_1_1_0";
     storage_files :=
       {[ "siphash(x).mrk" := encodeMarks false [zeroMark; zeroMark; zeroMark];
          "siphash(y).mrk" := [] ]} |}.

Definition partHashedEmptyMarks : MergeTreeDataPartWide :=
  partOf [columnX; columnY] (fun _ => numberSerialization) ∅ fixedInfo 20000
    storageHashedEmptyMarks.

(** A field is a number or something else. *)
Definition scenarioSafeGet (value : Z + string) : CodecZSTDQAT.CodecExcept Z :=
  match value with
  | inl v => CodecZSTDQAT.Returned v
  | inr _ =>
      CodecZSTDQAT.Raised
        (CodecZSTDQAT.mkCodecException (CodecZSTDQAT.OTHER_CODE 170)
           "Bad get: has {}, requested {}" [])
  end.


End Scenarios.

(** ** Properties of the monad and of the binary reader *)

Lemma bind_Ok {A B} (f : A -> Except B) (a : A) : (Ok a ≫= f) = f a.
Proof. reflexivity. Qed.

Lemma bind_Throw {A B} (f : A -> Except B) (e : Exception) :
  (Throw e ≫= f) = Throw e.
Proof. reflexivity. Qed.

Lemma foldM_app {S A} (body : S -> A -> Except S) (l1 l2 : list A) (s : S) :
  foldM body s (l1 ++ l2) = (foldM body s l1 ≫= fun s' => foldM body s' l2).
Proof.
  revert s. induction l1 as [|a l1 IH]; intros s; simpl; [reflexivity|].
  destruct (body s a) as [s'|e]; simpl; [apply IH | reflexivity].
Qed.

Lemma wrap64_range (z : Z) : isUInt64 (wrap64 z).
Proof. unfold isUInt64, wrap64. apply Z.mod_pos_bound. lia. Qed.

Lemma wrap64_small (z : Z) : isUInt64 z -> wrap64 z = z.
Proof. unfold isUInt64, wrap64. intros Hz. apply Z.mod_small. exact Hz. Qed.


Lemma wrap64_add_l (a b : Z) : wrap64 (wrap64 a + b) = wrap64 (a + b).
Proof. unfold wrap64. apply Zplus_mod_idemp_l. Qed.


Lemma wrap64_add_middle (a b c : Z) : wrap64 (a + wrap64 b + c) = wrap64 (a + (b + c)).
Proof.
  replace (a + wrap64 b + c) with (wrap64 b + (a + c)) by lia.
  rewrite wrap64_add_l. f_equal. lia.
Qed.

Lemma readBinary_le_split (z : Z) (rest : list byte) :
  readBinary (le_split 8 z ++ rest) = Ok (wrap64 z, rest).
Proof.
  unfold readBinary.
  destruct (decide (8 <= length (le_split 8 z ++ rest))%nat) as [_|Hn].
  - change (firstn 8 (le_split 8 z ++ rest)) with (le_split 8 z).
    change (skipn 8 (le_split 8 z ++ rest)) with rest.
    rewrite le_combine_split. reflexivity.
  - exfalso. apply Hn. rewrite length_app, length_le_split. lia.
Qed.

Lemma readBinary_short (reader : list byte) :
  (length reader < 8)%nat -> isThrow (readBinary reader) = true.
Proof.
  intros Hlen. unfold readBinary.
  destruct (decide (8 <= length reader)%nat); [lia | reflexivity].
Qed.

Lemma length_encodeMark (a : bool) (m : MarkRecord) :
  length (encodeMark a m) = if a then 24%nat else 16%nat.
Proof.
  unfold encodeMark. destruct a; rewrite !length_app, !length_le_split; reflexivity.
Qed.

Lemma length_encodeMarks (a : bool) (ms : list MarkRecord) :
  length (encodeMarks a ms) = (length ms * (if a then 24 else 16))%nat.
Proof.
  unfold encodeMarks. induction ms as [|m ms IH]; [reflexivity|].
  cbn [map concat]. rewrite length_app, IH, length_encodeMark.
  cbn [length]. destruct a; lia.
Qed.

Lemma eof_encodeMark (a : bool) (m : MarkRecord) (rest : list byte) :
  eof (encodeMark a m ++ rest) = false.
Proof. reflexivity. Qed.

(** ** The read loop *)

Lemma readMarks_unfold (fuel : nat) (a : bool) (reader : list byte) (count : Z)
    (ig : MergeTreeIndexGranularity) :
  eof reader = false ->
  readMarks (S fuel) a reader count ig =
    ('(_, reader) ← readBinary reader;
     '(_, reader) ← readBinary reader;
     if a then
       '(granularity, reader) ← readIntBinary reader;
       readMarks fuel a reader (wrap64 (count + 1)) (appendMark ig granularity)
     else readMarks fuel a reader (wrap64 (count + 1)) ig).
Proof. intros Heof. cbn [readMarks]. rewrite Heof. reflexivity. Qed.

Lemma readMarks_eof (fuel : nat) (a : bool) (count : Z)
    (ig : MergeTreeIndexGranularity) :
  readMarks fuel a [] count ig = Ok (count, ig).
Proof. destruct fuel; reflexivity. Qed.

Lemma appendMarks_nil (ig : MergeTreeIndexGranularity) : appendMarks ig [] = ig.
Proof. destruct ig. unfold appendMarks. simpl. rewrite app_nil_r. reflexivity. Qed.

Lemma appendMarks_cons (ig : MergeTreeIndexGranularity) (m : MarkRecord)
    (ms : list MarkRecord) :
  appendMarks (appendMark ig (wrap64 (granularity m))) ms = appendMarks ig (m :: ms).
Proof. unfold appendMarks, appendMark. simpl. rewrite <- app_assoc. reflexivity. Qed.

(** Reading back an encoded mark file: the loop sees one record per mark,
    counts it, and in the adaptive format appends its granularity. *)
Lemma readMarks_encodeMarks (a : bool) (ms : list MarkRecord) :
  forall (fuel : nat) (count : Z) (ig : MergeTreeIndexGranularity),
    (length (encodeMarks a ms) < fuel)%nat ->
    isUInt64 count ->
    readMarks fuel a (encodeMarks a ms) count ig =
      Ok (wrap64 (count + Z.of_nat (length ms)),
          if a then appendMarks ig ms else ig).
Proof.
  induction ms as [|m ms IH]; intros fuel count ig Hfuel Hcount.
  - change (encodeMarks a []) with (@nil byte). rewrite readMarks_eof.
    rewrite appendMarks_nil, Z.add_0_r, wrap64_small by exact Hcount.
    destruct a; reflexivity.
  - change (encodeMarks a (m :: ms)) with (encodeMark a m ++ encodeMarks a ms)%list in *.
    rewrite length_app, length_encodeMark in Hfuel.
    destruct fuel as [|fuel]; [lia|].
    rewrite readMarks_unfold by apply eof_encodeMark.
    unfold encodeMark. rewrite <- !app_assoc.
    rewrite readBinary_le_split, bind_Ok. cbn beta iota.
    rewrite readBinary_le_split, bind_Ok. cbn beta iota.
    replace (wrap64 (count + Z.of_nat (length (m :: ms))))
      with (wrap64 (wrap64 (count + 1) + Z.of_nat (length ms))).
    2:{ rewrite wrap64_add_l. f_equal. cbn [length]. lia. }
    destruct a.
    + unfold readIntBinary. rewrite readBinary_le_split, bind_Ok. cbn beta iota.
      rewrite IH; [| lia | apply wrap64_range].
      rewrite appendMarks_cons. reflexivity.
    + cbn [app]. rewrite IH; [reflexivity | lia | apply wrap64_range].
Qed.

Lemma readBinary_inv (reader : list byte) :
  (exists e, readBinary reader = Throw e)
  \/ (exists v, readBinary reader = Ok (v, skipn 8 reader)
                /\ (length (skipn 8 reader) + 8 = length reader)%nat).
Proof.
  unfold readBinary. case_decide.
  - right. eexists. split; [reflexivity|]. rewrite length_skipn. lia.
  - left. eexists. reflexivity.
Qed.

Ltac step_readBinary :=
  match goal with
  | |- context [readBinary ?r] =>
      let e := fresh "e" in
      let v := fresh "v" in
      let He := fresh "He" in
      let Hlen := fresh "Hlen" in
      destruct (readBinary_inv r) as [[e He]|[v [He Hlen]]];
      rewrite !He, ?bind_Ok, ?bind_Throw; cbn beta iota;
      [reflexivity|]
  end.

(** The loop never ends for lack of fuel: above the length of the reader,
    the amount of fuel does not matter. *)
Lemma readMarks_fuel (a : bool) :
  forall (fuel1 fuel2 : nat) (reader : list byte) (count : Z)
         (ig : MergeTreeIndexGranularity),
    (length reader < fuel1)%nat -> (length reader < fuel2)%nat ->
    readMarks fuel1 a reader count ig = readMarks fuel2 a reader count ig.
Proof.
  induction fuel1 as [|fuel1 IH]; intros fuel2 reader count ig H1 H2; [lia|].
  destruct fuel2 as [|fuel2]; [lia|].
  destruct reader as [|b reader]; [reflexivity|].
  rewrite !readMarks_unfold by reflexivity.
  unfold readIntBinary.
  do 2 step_readBinary.
  destruct a.
  - step_readBinary. apply IH; lia.
  - apply IH; lia.
Qed.

(** ** Loading the index granularity *)

Section LoadIndexGranularity.
Context `{Collaborators}.

(** C1.  When the mark format in force (the part's format after
    [changeGranularityIfRequired]) is neither adaptive nor compressed and the
    marks file exists, [loadIndexGranularityImpl] returns a table whose mark
    count is the size of the marks file divided by the mark record size,
    which is 16 bytes, and whose every entry is the fixed granularity. *)
Theorem loadIndexGranularityImpl_fixed_format
    (index_granularity_ : MergeTreeIndexGranularity)
    (index_granularity_info_ : MergeTreeIndexGranularityInfo)
    (data_part_storage_ : IDataPartStorage) (any_column_file_name : string)
    (marks_file : list byte) :
  let info := changeGranularityIfRequired index_granularity_info_ data_part_storage_ in
  adaptive (mark_type info) = false ->
  compressed (mark_type info) = false ->
  storage_files data_part_storage_ !! getMarksFilePath info any_column_file_name
    = Some marks_file ->
  exists table,
    loadIndexGranularityImpl index_granularity_ index_granularity_info_
      data_part_storage_ any_column_file_name = Ok (table, info)
    /\ getMarkSizeInBytes info = 16
    /\ getMarksCount table = Z.of_nat (length marks_file) / getMarkSizeInBytes info
    /\ Forall (fun rows => rows = fixed_index_granularity info) (marks_rows table)
    /\ initialized table = true.
Proof.
  intros info Hadaptive Hcompressed Hfile.
  unfold loadIndexGranularityImpl. fold info.
  unfold exists_, getFileSize. rewrite Hfile.
  rewrite bool_decide_eq_true_2 by eauto. cbn [negb].
  rewrite bind_Ok, Hadaptive, Hcompressed. cbn [negb andb].
  rewrite bind_Ok.
  eexists. split; [reflexivity|].
  assert (Hsize : getMarkSizeInBytes info = 16).
  { unfold getMarkSizeInBytes. rewrite Hadaptive. reflexivity. }
  repeat split.
  - exact Hsize.
  - unfold getMarksCount. cbn [setInitialized resizeWithFixedGranularity marks_rows].
    rewrite repeat_length, Z2Nat.id; [reflexivity|].
    rewrite Hsize. apply Z.div_pos; lia.
  - cbn [setInitialized resizeWithFixedGranularity marks_rows].
    apply List.Forall_forall. intros rows Hin. apply repeat_spec in Hin. exact Hin.
Qed.

(** C2.  When the mark format in force is adaptive or compressed and the
    content seen by the reader (the marks file itself, or what the
    decompressing reader yields from it) is the encoding of the marks [ms],
    [loadIndexGranularityImpl] started on an empty table reads one record
    per mark up to the end of the stream: the mark count is the number of
    records, and the table is the sequence of their granularities when the
    format is adaptive, the fixed granularity once per record when not. *)
Theorem loadIndexGranularityImpl_stream_format
    (index_granularity_info_ : MergeTreeIndexGranularityInfo)
    (data_part_storage_ : IDataPartStorage) (any_column_file_name : string)
    (marks_file : list byte) (ms : list MarkRecord) :
  let info := changeGranularityIfRequired index_granularity_info_ data_part_storage_ in
  adaptive (mark_type info) || compressed (mark_type info) = true ->
  storage_files data_part_storage_ !! getMarksFilePath info any_column_file_name
    = Some marks_file ->
  (if compressed (mark_type info)
   then CompressedReadBufferFromFile marks_file
   else Ok marks_file) = Ok (encodeMarks (adaptive (mark_type info)) ms) ->
  Forall (fun m => isUInt64 (granularity m)) ms ->
  Z.of_nat (length ms) < 2 ^ 64 ->
  exists table,
    loadIndexGranularityImpl empty_granularity index_granularity_info_
      data_part_storage_ any_column_file_name = Ok (table, info)
    /\ getMarksCount table = Z.of_nat (length ms)
    /\ marks_rows table =
         (if adaptive (mark_type info)
          then map granularity ms
          else repeat (fixed_index_granularity info) (length ms))
    /\ initialized table = true.
Proof.
  intros info Hformat Hfile Hreader Hrange Hcount.
  unfold loadIndexGranularityImpl. fold info.
  unfold exists_, getFileSize, readFile. rewrite Hfile.
  rewrite bool_decide_eq_true_2 by eauto. cbn [negb].
  rewrite bind_Ok.
  assert (Hbranch : negb (adaptive (mark_type info))
                    && negb (compressed (mark_type info)) = false).
  { destruct (adaptive (mark_type info)), (compressed (mark_type info));
      simpl in *; congruence. }
  rewrite Hbranch, bind_Ok.
  assert (Hreader' : (if negb (compressed (mark_type info))
                      then Ok marks_file
                      else CompressedReadBufferFromFile marks_file)
                     = Ok (encodeMarks (adaptive (mark_type info)) ms)).
  { destruct (compressed (mark_type info)); exact Hreader. }
  rewrite Hreader', bind_Ok.
  rewrite readMarks_encodeMarks; [| lia | unfold isUInt64; lia].
  rewrite bind_Ok. cbn beta iota. rewrite Z.add_0_l.
  rewrite wrap64_small by (unfold isUInt64; lia).
  assert (Hmap : map (fun m => wrap64 (granularity m)) ms = map granularity ms).
  { apply map_ext_Forall. eapply Forall_impl; [exact Hrange|].
    intros m Hm. apply wrap64_small. exact Hm. }
  destruct (adaptive (mark_type info)); cbn [negb]; rewrite bind_Ok;
    eexists; (split; [reflexivity|]);
    unfold getMarksCount;
    cbn [setInitialized resizeWithFixedGranularity appendMarks empty_granularity
         marks_rows initialized app].
  - rewrite Hmap, length_map. auto.
  - rewrite Nat2Z.id, repeat_length. auto.
Qed.

(** C8.  For a part with at least one column, when the marks file of the
    first column's resolved stream does not exist on storage,
    [loadIndexGranularity] throws [NO_FILE_IN_DATA_PART] naming the file; no
    loaded part is returned. *)
Theorem loadIndexGranularity_missing_marks_file
    (p : MergeTreeDataPartWide) (front : NameAndTypePair)
    (others : list NameAndTypePair) :
  let info := changeGranularityIfRequired (index_granularity_info p)
                (getDataPartStorage p) in
  let marks_file_path := getMarksFilePath info (getFileNameForColumn p front) in
  columns p = front :: others ->
  exists_ (getDataPartStorage p) marks_file_path = false ->
  loadIndexGranularity p =
    Throw (mkException NO_FILE_IN_DATA_PART "Marks file '{}' doesn't exist"
             [ArgStr (path_join (getFullPath (getDataPartStorage p)) marks_file_path)])
  /\ forall loaded, loadIndexGranularity p <> Ok loaded.
Proof.
  intros info marks_file_path Hcolumns Hmissing.
  assert (Hthrow : loadIndexGranularity p =
    Throw (mkException NO_FILE_IN_DATA_PART "Marks file '{}' doesn't exist"
             [ArgStr (path_join (getFullPath (getDataPartStorage p)) marks_file_path)])).
  { unfold loadIndexGranularity. rewrite Hcolumns.
    unfold loadIndexGranularityImpl. fold info. fold marks_file_path.
    rewrite Hmissing. reflexivity. }
  split; [exact Hthrow|].
  intros loaded Hloaded. rewrite Hthrow in Hloaded. discriminate.
Qed.

End LoadIndexGranularity.

(** ** Loops over the streams of all columns *)

Lemma foldM_map {S A B} (body : S -> B -> Except S) (f : A -> B) (l : list A) (s : S) :
  foldM body s (map f l) = foldM (fun s a => body s (f a)) s l.
Proof.
  revert s. induction l as [|a l IH]; intros s; simpl; [reflexivity|].
  destruct (body s (f a)); simpl; [apply IH | reflexivity].
Qed.

Lemma foldM_ext {S A} (body1 body2 : S -> A -> Except S) (l : list A) (s : S) :
  (forall s a, body1 s a = body2 s a) -> foldM body1 s l = foldM body2 s l.
Proof.
  intros Hext. revert s. induction l as [|a l IH]; intros s; simpl; [reflexivity|].
  rewrite Hext. destruct (body2 s a); simpl; [apply IH | reflexivity].
Qed.

(** A loop over the columns with a loop over the streams of each inside is
    one loop over the pairs of a column and one of its streams. *)
Lemma foldM_nested {S A B} (body : A -> S -> B -> Except S) (inner : A -> list B)
    (l : list A) (s : S) :
  foldM (fun s a => foldM (body a) s (inner a)) s l
  = foldM (fun s ab => body (fst ab) s (snd ab)) s
      (flat_map (fun a => map (pair a) (inner a)) l).
Proof.
  revert s. induction l as [|a l IH]; intros s; [reflexivity|].
  cbn [foldM flat_map]. rewrite foldM_app, foldM_map. cbn [fst snd].
  destruct (foldM (body a) s (inner a)); simpl; [apply IH | reflexivity].
Qed.

Lemma foldM_unit_Ok {A} (body : unit -> A -> Except unit) (l : list A) :
  foldM body tt l = Ok tt <-> Forall (fun a => body tt a = Ok tt) l.
Proof.
  induction l as [|a l IH]; simpl.
  - split; [constructor | reflexivity].
  - destruct (body tt a) as [[]|e] eqn:Hbody; simpl.
    + rewrite IH. split; [intros Hl; constructor; assumption|].
      intros Hl. inversion Hl; assumption.
    + split; [discriminate|]. intros Hl. inversion Hl; congruence.
Qed.

Lemma foldM_unit_Throw {A} (body : unit -> A -> Except unit) (l : list A)
    (e : Exception) :
  foldM body tt l = Throw e -> exists a, a ∈ l /\ body tt a = Throw e.
Proof.
  induction l as [|a l IH]; simpl; [discriminate|].
  destruct (body tt a) as [[]|e'] eqn:Hbody; simpl.
  - intros Hl. destruct (IH Hl) as (a' & Hin & Ha'). exists a'. split; [|exact Ha'].
    apply elem_of_cons. right. exact Hin.
  - intros [= <-]. exists a. split; [apply elem_of_cons; left; reflexivity | exact Hbody].
Qed.

Section CheckConsistency.
Context `{Collaborators}.

Lemma checksums_callback_Ok (p : MergeTreeDataPartWide) (column : NameAndTypePair)
    (substream_path : SubstreamPath) :
  checkConsistency_checksums_callback p
    (getFileExtension (mark_type (index_granularity_info p))) column tt substream_path
    = Ok tt
  <-> hasMarksChecksum p column substream_path /\ hasDataChecksum p column substream_path.
Proof.
  unfold checkConsistency_checksums_callback, hasMarksChecksum, hasDataChecksum,
    marksChecksumName, dataChecksumName, resolvedStreamName, files_contains.
  repeat case_bool_decide; cbn [negb]; split; try discriminate; tauto.
Qed.

Lemma checksums_callback_Throw (p : MergeTreeDataPartWide) (column : NameAndTypePair)
    (substream_path : SubstreamPath) (e : Exception) :
  checkConsistency_checksums_callback p
    (getFileExtension (mark_type (index_granularity_info p))) column tt substream_path
    = Throw e ->
  exists file,
    (file = marksChecksumName p column substream_path
       /\ ~ hasMarksChecksum p column substream_path
     \/ file = dataChecksumName p column substream_path
       /\ ~ hasDataChecksum p column substream_path)
    /\ code e = NO_FILE_IN_DATA_PART
    /\ args e = [ArgStr file; ArgStr (name column);
                 ArgStr (getFullPath (getDataPartStorage p))].
Proof.
  unfold checkConsistency_checksums_callback, hasMarksChecksum, hasDataChecksum,
    marksChecksumName, dataChecksumName, resolvedStreamName, files_contains.
  repeat case_bool_decide; cbn [negb]; intros [= <-]; eexists;
    (split; [|split; reflexivity]); tauto.
Qed.

Lemma checkConsistency_checksums_loop (p : MergeTreeDataPartWide) :
  checksums_empty (checksums p) = false ->
  checkConsistencyBase p = Ok tt ->
  checkConsistency p true =
    foldM (fun s cs =>
             checkConsistency_checksums_callback p
               (getFileExtension (mark_type (index_granularity_info p)))
               (fst cs) s (snd cs))
      tt (columnStreams p).
Proof.
  intros Hchecksums Hbase. unfold checkConsistency.
  rewrite Hbase, bind_Ok, Hchecksums. cbn [negb].
  unfold enumerateStreamsM, columnStreams.
  rewrite <- (foldM_nested
    (fun column => checkConsistency_checksums_callback p
       (getFileExtension (mark_type (index_granularity_info p))) column)
    (fun column => streams (getSerialization p (name column)))).
  apply foldM_ext. intros [] column. reflexivity.
Qed.

(** C4.  With a non-empty checksum index (and the base check passed), the
    check with [require_part_metadata] passes exactly when every enumerated
    stream of every column has both its mark-file and its data-file checksum
    entry; otherwise it throws [NO_FILE_IN_DATA_PART] whose arguments are
    the missing file, the name of the column and the path of the part. *)
Theorem checkConsistency_requires_both_checksums (p : MergeTreeDataPartWide) :
  checksums_empty (checksums p) = false ->
  checkConsistencyBase p = Ok tt ->
  (checkConsistency p true = Ok tt
   <-> forall column substream_path,
         (column, substream_path) ∈ columnStreams p ->
         hasMarksChecksum p column substream_path
         /\ hasDataChecksum p column substream_path)
  /\ ((exists column substream_path,
         (column, substream_path) ∈ columnStreams p
         /\ ~ (hasMarksChecksum p column substream_path
               /\ hasDataChecksum p column substream_path))
      -> exists e column substream_path file,
           checkConsistency p true = Throw e
           /\ (column, substream_path) ∈ columnStreams p
           /\ (file = marksChecksumName p column substream_path
                 /\ ~ hasMarksChecksum p column substream_path
               \/ file = dataChecksumName p column substream_path
                 /\ ~ hasDataChecksum p column substream_path)
           /\ code e = NO_FILE_IN_DATA_PART
           /\ args e = [ArgStr file; ArgStr (name column);
                        ArgStr (getFullPath (getDataPartStorage p))]).
Proof.
  intros Hchecksums Hbase.
  rewrite (checkConsistency_checksums_loop p Hchecksums Hbase).
  assert (Hpass :
    foldM (fun s cs =>
             checkConsistency_checksums_callback p
               (getFileExtension (mark_type (index_granularity_info p)))
               (fst cs) s (snd cs)) tt (columnStreams p) = Ok tt
    <-> forall column substream_path,
          (column, substream_path) ∈ columnStreams p ->
          hasMarksChecksum p column substream_path
          /\ hasDataChecksum p column substream_path).
  { rewrite foldM_unit_Ok, Forall_forall. split.
    - intros Hall column substream_path Hin.
      apply checksums_callback_Ok. apply (Hall _ Hin).
    - intros Hall [column substream_path] Hin.
      apply checksums_callback_Ok. apply Hall. exact Hin. }
  split; [exact Hpass|].
  intros (column & substream_path & Hin & Hlacks).
  destruct (foldM _ tt (columnStreams p)) as [[]|e] eqn:Hloop.
  - exfalso. apply Hlacks. apply Hpass; [reflexivity | exact Hin].
  - apply foldM_unit_Throw in Hloop.
    destruct Hloop as ([column' path'] & Hin' & Hthrow).
    apply checksums_callback_Throw in Hthrow.
    destruct Hthrow as (file & Hfile & Hcode & Hargs).
    exists e, column', path', file. repeat split; assumption.
Qed.

End CheckConsistency.

(** ** The check of the mark files of a part without checksums *)

Lemma uniformSizes_Some (size : Z) (sizes : list Z) :
  uniformSizes (Some size) sizes = true
  <-> Forall (fun file_size => file_size <> 0 /\ file_size = size) sizes.
Proof.
  induction sizes as [|z sizes IH]; simpl.
  - split; [constructor | reflexivity].
  - rewrite !andb_true_iff, negb_true_iff, bool_decide_eq_false, bool_decide_eq_true, IH.
    split.
    + intros (Hz & Heq & Hrest). constructor; [split|]; assumption.
    + intros Hall. inversion Hall as [|? ? [Hz Heq] Hrest]; subst. auto.
Qed.

Lemma uniformSizes_None (sizes : list Z) :
  uniformSizes None sizes = true
  <-> Forall (fun file_size => file_size <> 0) sizes
      /\ forall x y, x ∈ sizes -> y ∈ sizes -> x = y.
Proof.
  destruct sizes as [|z sizes]; simpl.
  - split; [|reflexivity]. intros _. split; [constructor|].
    intros x y Hx. apply elem_of_nil in Hx. contradiction.
  - rewrite andb_true_iff, negb_true_iff, bool_decide_eq_false, uniformSizes_Some.
    rewrite !Forall_forall. split.
    + intros (Hz & Hall). split.
      * intros x Hx. apply elem_of_cons in Hx as [->|Hx]; [exact Hz|].
        apply (Hall x Hx).
      * assert (Heq : forall x, x ∈ z :: sizes -> x = z).
        { intros x Hx. apply elem_of_cons in Hx as [->|Hx]; [reflexivity|].
          apply (Hall x Hx). }
        intros x y Hx Hy. rewrite (Heq x Hx), (Heq y Hy). reflexivity.
    + intros (Hnonzero & Hequal). split.
      * apply Hnonzero. apply elem_of_cons. left. reflexivity.
      * intros x Hx. split.
        -- apply Hnonzero. apply elem_of_cons. right. exact Hx.
        -- apply Hequal; apply elem_of_cons; [right; exact Hx | left; reflexivity].
Qed.

Lemma omap_cons_Some {A B} (f : A -> option B) (a : A) (b : B) (l : list A) :
  f a = Some b -> omap f (a :: l) = b :: omap f l.
Proof. intros Hf. cbn. rewrite Hf. reflexivity. Qed.

Lemma omap_cons_None {A B} (f : A -> option B) (a : A) (l : list A) :
  f a = None -> omap f (a :: l) = omap f l.
Proof. intros Hf. cbn. rewrite Hf. reflexivity. Qed.

Lemma checkMarksSize_loop {A} (size_of : A -> option Z) (throw_empty : A -> Exception)
    (throw_different : Exception) (l : list A) :
  forall marks_size,
    if uniformSizes marks_size (omap size_of l)
    then exists marks_size',
        foldM (fun s a => checkMarksSize (throw_empty a) throw_different s (size_of a))
          marks_size l = Ok marks_size'
    else exists e,
        foldM (fun s a => checkMarksSize (throw_empty a) throw_different s (size_of a))
          marks_size l = Throw e
        /\ (e = throw_different \/ exists a, e = throw_empty a).
Proof.
  induction l as [|a l IH]; intros marks_size.
  - simpl. eauto.
  - cbn [foldM]. destruct (size_of a) as [z|] eqn:Hsize.
    + rewrite (omap_cons_Some _ _ _ _ Hsize).
      cbn [checkMarksSize uniformSizes].
      case_bool_decide as Hz; cbn [negb andb].
      { eexists. split; [reflexivity|]. right. eexists. reflexivity. }
      destruct marks_size as [size|].
      * case_bool_decide as Heq; cbn [negb andb].
        -- rewrite bind_Ok. apply IH.
        -- eexists. split; [reflexivity|]. left. reflexivity.
      * rewrite bind_Ok. apply IH.
    + rewrite (omap_cons_None _ _ _ Hsize).
      cbn [checkMarksSize]. rewrite bind_Ok. apply IH.
Qed.

Section CheckMarks.
Context `{Collaborators}.

Lemma marks_callback_spec (p : MergeTreeDataPartWide)
    (cs : NameAndTypePair * SubstreamPath) (marks_size : option Z) :
  checkConsistency_marks_callback p
    (getFileExtension (mark_type (index_granularity_info p))) (fst cs) marks_size (snd cs)
  = checkMarksSize
      (emptyMarksException p
         (probedMarksFile p (getFileExtension (mark_type (index_granularity_info p)))
            (fst cs) (snd cs)))
      (differentMarksException p) marks_size (marksFileSize p cs).
Proof.
  unfold checkConsistency_marks_callback, marksFileSize, exists_, getFileSize.
  destruct (storage_files (getDataPartStorage p) !! _) as [content|] eqn:Hfile.
  - rewrite bool_decide_eq_true_2 by eauto. reflexivity.
  - rewrite bool_decide_eq_false_2 by (intros [? ?]; discriminate). reflexivity.
Qed.

Lemma checkConsistency_marks_loop (p : MergeTreeDataPartWide)
    (require_part_metadata : bool) :
  checksums_empty (checksums p) = true ->
  checkConsistencyBase p = Ok tt ->
  checkConsistency p require_part_metadata =
    (foldM (fun s cs =>
              checkMarksSize
                (emptyMarksException p
                   (probedMarksFile p
                      (getFileExtension (mark_type (index_granularity_info p)))
                      (fst cs) (snd cs)))
                (differentMarksException p) s (marksFileSize p cs))
       None (columnStreams p);;
     Ok tt).
Proof.
  intros Hchecksums Hbase. unfold checkConsistency.
  rewrite Hbase, bind_Ok, Hchecksums. cbn [negb].
  unfold enumerateStreamsM, columnStreams. f_equal.
  rewrite (foldM_nested
    (fun column => checkConsistency_marks_callback p
       (getFileExtension (mark_type (index_granularity_info p))) column)
    (fun column => streams (getSerialization p (name column)))).
  apply foldM_ext. intros s cs. apply marks_callback_spec.
Qed.

(** What the check without checksums does with the mark files it finds at
    the paths it probes (and the base check passed): the check passes when
    each of them is non-empty and all have one size, whatever mark files are
    absent at those paths, and it throws [BAD_SIZE_OF_FILE_IN_DATA_PART]
    when one of them has size zero or when two of them differ in size. *)
Theorem checkConsistency_marks_sizes (p : MergeTreeDataPartWide)
    (require_part_metadata : bool) :
  checksums_empty (checksums p) = true ->
  checkConsistencyBase p = Ok tt ->
  (Forall (fun file_size => file_size <> 0) (existingMarksSizes p)
   /\ (forall x y, x ∈ existingMarksSizes p -> y ∈ existingMarksSizes p -> x = y)
   -> checkConsistency p require_part_metadata = Ok tt)
  /\ (0 ∈ existingMarksSizes p
      \/ (exists x y, x ∈ existingMarksSizes p /\ y ∈ existingMarksSizes p /\ x <> y)
      -> exists e, checkConsistency p require_part_metadata = Throw e
                   /\ code e = BAD_SIZE_OF_FILE_IN_DATA_PART).
Proof.
  intros Hchecksums Hbase.
  rewrite (checkConsistency_marks_loop p require_part_metadata Hchecksums Hbase).
  pose proof (checkMarksSize_loop (marksFileSize p)
    (fun cs => emptyMarksException p
       (probedMarksFile p (getFileExtension (mark_type (index_granularity_info p)))
          (fst cs) (snd cs)))
    (differentMarksException p) (columnStreams p) None) as Hloop.
  fold (existingMarksSizes p) in Hloop.
  pose proof (uniformSizes_None (existingMarksSizes p)) as Huniform.
  destruct (uniformSizes None (existingMarksSizes p)).
  - destruct Hloop as [marks_size Hloop]. rewrite Hloop. split; [reflexivity|].
    destruct Huniform as [Huniform _]. destruct (Huniform eq_refl) as [Hnonzero Hequal].
    intros [Hzero|(x & y & Hx & Hy & Hdiff)]; exfalso.
    + rewrite Forall_forall in Hnonzero. apply (Hnonzero 0 Hzero). reflexivity.
    + apply Hdiff. apply Hequal; assumption.
  - destruct Hloop as (e & Hloop & He). rewrite Hloop. split.
    + intros Hgood. destruct Huniform as [_ Huniform].
      specialize (Huniform Hgood). discriminate.
    + intros _. exists e. split; [reflexivity|].
      destruct He as [->|[cs ->]]; reflexivity.
Qed.

End CheckMarks.

(** ** Sums over sets of stream names *)

Lemma setSum_empty (f : string -> Z) : setSum f ∅ = 0.
Proof. unfold setSum. apply set_fold_empty. Qed.

Lemma setSum_insert (f : string -> Z) (x : string) (X : gset string) :
  x ∉ X -> setSum f ({[x]} ∪ X) = f x + setSum f X.
Proof.
  intros Hx. unfold setSum.
  rewrite (set_fold_disj_union_strong (=) (fun n acc => f n + acc) 0 {[x]} X).
  - rewrite set_fold_singleton.
    rewrite (set_fold_comm_acc (fun n acc => f n + acc) (fun acc => f x + acc)).
    + lia.
    + intros. lia.
  - intros n. solve_proper.
  - intros. lia.
  - set_solver.
Qed.

Lemma setSum_zero (f : string -> Z) (X : gset string) :
  (forall n, f n = 0) -> setSum f X = 0.
Proof.
  intros Hf. unfold setSum.
  apply (set_fold_ind_L (fun acc _ => acc = 0)); [reflexivity|].
  intros x Y acc _ ->. rewrite Hf. reflexivity.
Qed.

Lemma setSum_disj_union (f : string -> Z) (X Y : gset string) :
  X ## Y -> setSum f (X ∪ Y) = setSum f X + setSum f Y.
Proof.
  revert X. apply (set_ind_L (fun X => X ## Y -> setSum f (X ∪ Y) = setSum f X + setSum f Y)).
  - intros _. rewrite (left_id_L ∅ (∪)), setSum_empty. lia.
  - intros x X Hx IH Hdisj.
    rewrite <- (assoc_L (∪)), !setSum_insert by set_solver.
    rewrite IH by set_solver. lia.
Qed.

Lemma difference_insert_fresh (n : string) (rest processed : gset string) :
  n ∉ processed ->
  ({[n]} ∪ rest) ∖ processed = {[n]} ∪ (rest ∖ ({[n]} ∪ processed)).
Proof.
  intros Hn. apply set_eq. intros x.
  destruct (decide (x = n)) as [->|Hx]; set_solver.
Qed.

Lemma difference_insert_seen (n : string) (rest processed : gset string) :
  n ∈ processed -> ({[n]} ∪ rest) ∖ processed = rest ∖ processed.
Proof. set_solver. Qed.

Lemma union_insert_seen (n : string) (rest processed : gset string) :
  n ∈ processed -> {[n]} ∪ rest ∪ processed = rest ∪ processed.
Proof. set_solver. Qed.

Lemma union_insert_middle (n : string) (rest processed : gset string) :
  rest ∪ ({[n]} ∪ processed) = {[n]} ∪ rest ∪ processed.
Proof. set_solver. Qed.

Lemma union_difference_split (A B seen : gset string) :
  (A ∪ B) ∖ seen = (A ∖ seen) ∪ (B ∖ (A ∪ seen)).
Proof.
  apply set_eq. intros x. destruct (decide (x ∈ A)); set_solver.
Qed.

Lemma union_swap (A B C : gset string) : A ∪ (B ∪ C) = B ∪ A ∪ C.
Proof. set_solver. Qed.

Lemma difference_split_disjoint (A B seen : gset string) :
  (A ∖ seen) ## (B ∖ (A ∪ seen)).
Proof. set_solver. Qed.

(** ** Column sizes *)

Lemma ColumnSize_zero_wrapSize : ColumnSize_zero = wrapSize 0 0 0.
Proof. reflexivity. Qed.

Lemma ColumnSize_add_wrapSize (m c u : Z) (size : ColumnSize) :
  ColumnSize_add (wrapSize m c u) size
  = wrapSize (m + marks size) (c + data_compressed size) (u + data_uncompressed size).
Proof.
  unfold ColumnSize_add, wrapSize. cbn [marks data_compressed data_uncompressed].
  rewrite !wrap64_add_l. reflexivity.
Qed.

Lemma fold_ColumnSize_add (sizes : list ColumnSize) :
  forall m c u,
    fold_left ColumnSize_add sizes (wrapSize m c u)
    = wrapSize (m + sumZ (map marks sizes))
        (c + sumZ (map data_compressed sizes))
        (u + sumZ (map data_uncompressed sizes)).
Proof.
  unfold sumZ.
  induction sizes as [|size sizes IH]; intros m c u.
  - cbn [fold_left map foldr]. rewrite !Z.add_0_r. reflexivity.
  - cbn [fold_left]. rewrite ColumnSize_add_wrapSize, IH.
    cbn [map foldr]. f_equal; lia.
Qed.

Section ColumnSizes.
Context `{Collaborators}.

Lemma addStreamSize_wrapSize (p : MergeTreeDataPartWide) (m c u : Z) (n : string) :
  addStreamSize p (wrapSize m c u) n
  = wrapSize (m + marksBytes p n) (c + compressedBytes p n) (u + uncompressedBytes p n).
Proof.
  unfold addStreamSize, marksBytes, compressedBytes, uncompressedBytes, wrapSize.
  destruct (files (checksums p) !! (n ++ ".bin")) as [bin|];
    destruct (files (checksums p) !! (n ++ getMarksFileExtension p)) as [mrk|];
    cbn [marks data_compressed data_uncompressed];
    rewrite ?wrap64_add_l, ?Z.add_0_r; reflexivity.
Qed.

(** The loop of [getColumnSizeImpl] with a set of processed substreams adds
    the bytes of the streams not yet in the set, each once, and puts them
    into the set. *)
Lemma getColumnSizeImpl_loop (p : MergeTreeDataPartWide) (column : NameAndTypePair)
    (paths : list SubstreamPath) :
  forall (m c u : Z) (processed : gset string),
    fold_left (getColumnSizeImpl_callback p column) paths
      (wrapSize m c u, Some processed)
    = (let X := list_to_set (map (resolvedStreamName p column) paths) ∖ processed in
       wrapSize (m + setSum (marksBytes p) X) (c + setSum (compressedBytes p) X)
         (u + setSum (uncompressedBytes p) X),
       Some (list_to_set (map (resolvedStreamName p column) paths) ∪ processed)).
Proof.
  induction paths as [|path paths IH]; intros m c u processed; cbn zeta.
  - cbn [fold_left map].
    replace (list_to_set [] ∖ processed) with (∅ : gset string) by set_solver.
    replace (list_to_set [] ∪ processed) with processed by set_solver.
    rewrite !setSum_empty, !Z.add_0_r. reflexivity.
  - cbn [fold_left map list_to_set].
    unfold getColumnSizeImpl_callback at 2.
    fold (resolvedStreamName p column path).
    set (n := resolvedStreamName p column path).
    set (rest := list_to_set (map (resolvedStreamName p column) paths) : gset string).
    destruct (decide (n ∈ processed)) as [Hin|Hnotin].
    + rewrite IH. cbn zeta. fold rest. clearbody rest n.
      rewrite (difference_insert_seen n rest processed Hin).
      rewrite (union_insert_seen n rest processed Hin).
      reflexivity.
    + rewrite addStreamSize_wrapSize, IH. cbn zeta. fold rest. clearbody rest n.
      rewrite (difference_insert_fresh n rest processed Hnotin).
      rewrite (union_insert_middle n rest processed).
      rewrite !setSum_insert by set_solver.
      f_equal. f_equal; lia.
Qed.

(** With a set of processed substreams, [getColumnSizeImpl] returns the size
    of the streams of the column that are not yet in the set. *)
Lemma getColumnSizeImpl_size (p : MergeTreeDataPartWide) (column : NameAndTypePair)
    (processed : gset string) :
  checksums_empty (checksums p) = false ->
  getColumnSizeImpl p column (Some processed)
  = (sizeOfStreams p (streamNames p column ∖ processed),
     Some (streamNames p column ∪ processed)).
Proof.
  intros Hchecksums. unfold getColumnSizeImpl, enumerateStreams.
  rewrite Hchecksums, ColumnSize_zero_wrapSize, getColumnSizeImpl_loop. cbn zeta.
  unfold sizeOfStreams, streamNames. rewrite !Z.add_0_l. reflexivity.
Qed.

Lemma bytes_empty (p : MergeTreeDataPartWide) (n : string) :
  checksums_empty (checksums p) = true ->
  marksBytes p n = 0 /\ compressedBytes p n = 0 /\ uncompressedBytes p n = 0.
Proof.
  unfold checksums_empty, marksBytes, compressedBytes, uncompressedBytes.
  intros Hempty. apply bool_decide_eq_true in Hempty. rewrite Hempty.
  rewrite !lookup_empty. auto.
Qed.

Lemma sizeOfStreams_empty (p : MergeTreeDataPartWide) (X : gset string) :
  checksums_empty (checksums p) = true -> sizeOfStreams p X = ColumnSize_zero.
Proof.
  intros Hempty. unfold sizeOfStreams.
  rewrite !setSum_zero; [reflexivity| | |]; intros n; apply (bytes_empty p n Hempty).
Qed.

End ColumnSizes.

(** ** The pass over all columns *)

Section EachColumnSizes.
Context `{Collaborators}.

Lemma calculateEachColumnSizes_body_spec (p : MergeTreeDataPartWide)
    (processed : gset string) (each : gmap string ColumnSize) (total : ColumnSize)
    (column : NameAndTypePair) :
  calculateEachColumnSizes_body p (processed, each, total) column
  = (let '(size, processed') := getColumnSizeImpl p column (Some processed) in
     if rowsMismatch p (column, size)
     then Throw (rowsException p (column, size))
     else Ok (default processed processed', <[name column := size]> each,
              ColumnSize_add total size)).
Proof.
  unfold calculateEachColumnSizes_body, rowsMismatch, rowsException, rowsInColumn.
  destruct (getColumnSizeImpl p column (Some processed)) as [size processed'].
  cbn [fst snd].
  destruct (negb NDEBUG && isTrivialColumn p column); cbn [andb]; [|reflexivity].
  destruct (negb (bool_decide _)); reflexivity.
Qed.

(** The loop throws for the first column whose check fails, and otherwise
    records every size and adds it to the total. *)
Lemma calculateEachColumnSizes_loop (p : MergeTreeDataPartWide)
    (cols : list NameAndTypePair) :
  forall (processed : gset string) (each : gmap string ColumnSize) (total : ColumnSize),
    match find (rowsMismatch p) (columnSizesFrom p processed cols) with
    | Some cs =>
        foldM (calculateEachColumnSizes_body p) (processed, each, total) cols
        = Throw (rowsException p cs)
    | None =>
        exists processed',
        foldM (calculateEachColumnSizes_body p) (processed, each, total) cols
        = Ok (processed', insertSizes each (columnSizesFrom p processed cols),
              fold_left ColumnSize_add (map snd (columnSizesFrom p processed cols)) total)
    end.
Proof.
  induction cols as [|column cols IH]; intros processed each total.
  - cbn. eauto.
  - cbn [foldM columnSizesFrom]. rewrite calculateEachColumnSizes_body_spec.
    destruct (getColumnSizeImpl p column (Some processed)) as [size processed'].
    cbn [find]. destruct (rowsMismatch p (column, size)); [reflexivity|].
    rewrite bind_Ok.
    specialize (IH (default processed processed') (<[name column := size]> each)
                  (ColumnSize_add total size)).
    destruct (find _ _); exact IH.
Qed.

Lemma calculateEachColumnSizes_spec (p : MergeTreeDataPartWide)
    (each : gmap string ColumnSize) (total : ColumnSize) :
  calculateEachColumnSizes p each total =
    match find (rowsMismatch p) (passSizes p) with
    | Some cs => Throw (rowsException p cs)
    | None => Ok (insertSizes each (passSizes p),
                  fold_left ColumnSize_add (map snd (passSizes p)) total)
    end.
Proof.
  unfold calculateEachColumnSizes, passSizes.
  pose proof (calculateEachColumnSizes_loop p (columns p) ∅ each total) as Hloop.
  destruct (find _ _).
  - rewrite Hloop. reflexivity.
  - destruct Hloop as [processed' ->]. reflexivity.
Qed.

Lemma columnSizesFrom_dedupSizes (p : MergeTreeDataPartWide)
    (cols : list NameAndTypePair) :
  forall processed seen,
    (checksums_empty (checksums p) = false -> processed = seen) ->
    columnSizesFrom p processed cols = dedupSizes p seen cols.
Proof.
  induction cols as [|column cols IH]; intros processed seen Hseen; [reflexivity|].
  cbn [columnSizesFrom dedupSizes].
  destruct (checksums_empty (checksums p)) eqn:Hchecksums.
  - unfold getColumnSizeImpl. rewrite Hchecksums. cbn [default].
    rewrite sizeOfStreams_empty by exact Hchecksums.
    f_equal. apply IH. discriminate.
  - rewrite (Hseen eq_refl), getColumnSizeImpl_size by exact Hchecksums.
    cbn [default]. f_equal. apply IH. reflexivity.
Qed.

Lemma passSizes_dedupSizes (p : MergeTreeDataPartWide) :
  passSizes p = dedupSizes p ∅ (columns p).
Proof. apply columnSizesFrom_dedupSizes. reflexivity. Qed.

Lemma dedupSizes_app (p : MergeTreeDataPartWide) (cols1 cols2 : list NameAndTypePair) :
  forall seen,
    dedupSizes p seen (cols1 ++ cols2)
    = (dedupSizes p seen cols1
       ++ dedupSizes p (streamNamesOf p cols1 ∪ seen) cols2)%list.
Proof.
  induction cols1 as [|column cols1 IH]; intros seen.
  - cbn [app dedupSizes]. unfold streamNamesOf. cbn [map union_list foldr].
    rewrite (left_id_L ∅ (∪)). reflexivity.
  - cbn [app dedupSizes]. rewrite IH. do 3 f_equal.
    unfold streamNamesOf. cbn [map union_list foldr].
    apply union_swap.
Qed.

Lemma map_fst_dedupSizes (p : MergeTreeDataPartWide) (cols : list NameAndTypePair) :
  forall seen, map fst (dedupSizes p seen cols) = cols.
Proof.
  induction cols as [|column cols IH]; intros seen; [reflexivity|].
  cbn [dedupSizes map fst]. rewrite IH. reflexivity.
Qed.

(** The total of the sizes counts each stream of the columns once. *)
Lemma fold_dedupSizes (p : MergeTreeDataPartWide) (cols : list NameAndTypePair) :
  forall seen m c u,
    fold_left ColumnSize_add (map snd (dedupSizes p seen cols)) (wrapSize m c u)
    = (let X := streamNamesOf p cols ∖ seen in
       wrapSize (m + setSum (marksBytes p) X) (c + setSum (compressedBytes p) X)
         (u + setSum (uncompressedBytes p) X)).
Proof.
  induction cols as [|column cols IH]; intros seen m c u; cbn zeta.
  - cbn [dedupSizes map fold_left]. unfold streamNamesOf. cbn [map union_list foldr].
    replace (∅ ∖ seen) with (∅ : gset string) by (clear; set_solver).
    rewrite !setSum_empty, !Z.add_0_r. reflexivity.
  - cbn [dedupSizes map fold_left snd].
    rewrite ColumnSize_add_wrapSize. unfold sizeOfStreams at 1 2 3.
    cbn [wrapSize marks data_compressed data_uncompressed].
    rewrite IH. cbn zeta.
    unfold streamNamesOf. cbn [map union_list foldr]. fold (streamNamesOf p cols).
    rewrite union_difference_split.
    rewrite !setSum_disj_union by apply difference_split_disjoint.
    unfold wrapSize. rewrite !wrap64_add_middle. reflexivity.
Qed.

End EachColumnSizes.

(** ** The sizes recorded per column *)

Lemma insertSizes_lookup_ne (sizes : list (NameAndTypePair * ColumnSize)) :
  forall (each : gmap string ColumnSize) (n : string),
    n ∉ map (fun cs => name (fst cs)) sizes ->
    insertSizes each sizes !! n = each !! n.
Proof.
  unfold insertSizes.
  induction sizes as [|cs sizes IH]; intros each n Hn; [reflexivity|].
  cbn [fold_left map] in *. apply not_elem_of_cons in Hn as [Hne Hn].
  rewrite IH by exact Hn. apply lookup_insert_ne. congruence.
Qed.

Lemma insertSizes_lookup (sizes1 sizes2 : list (NameAndTypePair * ColumnSize))
    (each : gmap string ColumnSize) (column : NameAndTypePair) (size : ColumnSize) :
  name column ∉ map (fun cs => name (fst cs)) sizes2 ->
  insertSizes each (sizes1 ++ (column, size) :: sizes2) !! name column = Some size.
Proof.
  intros Hlast.
  assert (Hsplit : insertSizes each (sizes1 ++ (column, size) :: sizes2)
                   = insertSizes (<[name column := size]> (insertSizes each sizes1)) sizes2).
  { unfold insertSizes. rewrite fold_left_app. reflexivity. }
  rewrite Hsplit, insertSizes_lookup_ne by exact Hlast. apply lookup_insert_eq.
Qed.

Lemma insertSizes_Forall2 (sizes : list (NameAndTypePair * ColumnSize)) :
  forall each : gmap string ColumnSize,
    NoDup (map (fun cs => name (fst cs)) sizes) ->
    Forall2 (fun column size => insertSizes each sizes !! name column = Some size)
      (map fst sizes) (map snd sizes).
Proof.
  induction sizes as [|[column size] sizes IH]; intros each Hnodup; [constructor|].
  cbn [map fst snd] in *. apply NoDup_cons in Hnodup as [Hfresh Hnodup].
  constructor.
  - apply (insertSizes_lookup [] sizes each column size Hfresh).
  - apply (IH (<[name column := size]> each) Hnodup).
Qed.

Lemma find_Some_split {A} (P : A -> bool) (l : list A) (a : A) :
  find P l = Some a ->
  exists earlier later,
    l = (earlier ++ a :: later)%list
    /\ Forall (fun b => P b = false) earlier
    /\ P a = true.
Proof.
  induction l as [|b l IH]; cbn [find]; [discriminate|].
  destruct (P b) eqn:Hb.
  - intros [= <-]. exists [], l. repeat split; [constructor | exact Hb].
  - intros Hfind. destruct (IH Hfind) as (earlier & later & -> & Hearlier & Ha).
    exists (b :: earlier), later. repeat split; [|exact Ha].
    constructor; assumption.
Qed.

Section SizeTheorems.
Context `{Collaborators}.

Lemma map_fst_passSizes (p : MergeTreeDataPartWide) : map fst (passSizes p) = columns p.
Proof. rewrite passSizes_dedupSizes. apply map_fst_dedupSizes. Qed.

Lemma passSizes_names (p : MergeTreeDataPartWide) :
  map (fun cs => name (fst cs)) (passSizes p) = map name (columns p).
Proof. rewrite <- (map_fst_passSizes p), map_map. reflexivity. Qed.

Lemma find_rowsMismatch_None (p : MergeTreeDataPartWide)
    (sizes : list (NameAndTypePair * ColumnSize)) :
  NDEBUG = true \/ rows_count p = 0 -> find (rowsMismatch p) sizes = None.
Proof.
  intros Hquiet. induction sizes as [|cs sizes IH]; [reflexivity|].
  cbn [find]. rewrite IH.
  assert (Hcs : rowsMismatch p cs = false); [|rewrite Hcs; reflexivity].
  unfold rowsMismatch, isTrivialColumn. destruct Hquiet as [->| ->]; [reflexivity|].
  rewrite bool_decide_eq_true_2 by reflexivity.
  destruct NDEBUG; reflexivity.
Qed.

(** C10.  For a part whose row count is zero, [calculateEachColumnSizes]
    returns, with every size recorded and added to the total: the check of
    the derived row count is not made, whatever the checksums record. *)
Theorem calculateEachColumnSizes_zero_rows (p : MergeTreeDataPartWide)
    (each_columns_size : gmap string ColumnSize) (total_size : ColumnSize) :
  rows_count p = 0 ->
  calculateEachColumnSizes p each_columns_size total_size
  = Ok (insertSizes each_columns_size (passSizes p),
        fold_left ColumnSize_add (map snd (passSizes p)) total_size).
Proof.
  intros Hrows. rewrite calculateEachColumnSizes_spec.
  rewrite find_rowsMismatch_None by (right; exact Hrows). reflexivity.
Qed.

(** C9.  For a part whose column names are distinct,
    [calculateEachColumnSizes], started on an empty map and a zero total,
    returns a total whose three components are the sums, in [size_t], of the
    components of the sizes that it records for the columns of the part;
    it does return whenever [NDEBUG] is defined or the part has no rows. *)
Theorem calculateEachColumnSizes_total_is_sum (p : MergeTreeDataPartWide) :
  NoDup (map name (columns p)) ->
  (NDEBUG = true \/ rows_count p = 0 ->
   exists each total, calculateEachColumnSizes p ∅ ColumnSize_zero = Ok (each, total))
  /\ forall each total,
       calculateEachColumnSizes p ∅ ColumnSize_zero = Ok (each, total) ->
       exists sizes,
         Forall2 (fun column size => each !! name column = Some size) (columns p) sizes
         /\ marks total = wrap64 (sumZ (map marks sizes))
         /\ data_compressed total = wrap64 (sumZ (map data_compressed sizes))
         /\ data_uncompressed total = wrap64 (sumZ (map data_uncompressed sizes)).
Proof.
  intros Hnodup. split.
  - intros Hquiet. rewrite calculateEachColumnSizes_spec.
    rewrite find_rowsMismatch_None by exact Hquiet. eauto.
  - intros each total. rewrite calculateEachColumnSizes_spec.
    destruct (find _ _); [discriminate|]. intros [= <- <-].
    exists (map snd (passSizes p)). split.
    + rewrite <- (map_fst_passSizes p) at 1. apply insertSizes_Forall2.
      rewrite passSizes_names. exact Hnodup.
    + rewrite ColumnSize_zero_wrapSize, fold_ColumnSize_add, !Z.add_0_l.
      repeat split.
Qed.

(** C3, as the code has it.  A pass of [calculateEachColumnSizes] counts
    the bytes of each distinct stream of the part once in the total; the
    size recorded for a column counts the streams that the column
    enumerates and that no earlier column of the part enumerates, so the
    bytes of a shared stream are in the size of the first column that
    enumerates it and in no later one. *)
Theorem calculateEachColumnSizes_shared_streams (p : MergeTreeDataPartWide)
    (before after : list NameAndTypePair) (column : NameAndTypePair)
    (each : gmap string ColumnSize) (total : ColumnSize) :
  columns p = (before ++ column :: after)%list ->
  name column ∉ map name after ->
  calculateEachColumnSizes p ∅ ColumnSize_zero = Ok (each, total) ->
  total = sizeOfStreams p (streamNamesOf p (columns p))
  /\ each !! name column
     = Some (sizeOfStreams p (streamNames p column ∖ streamNamesOf p before)).
Proof.
  intros Hcolumns Hlast. rewrite calculateEachColumnSizes_spec.
  destruct (find _ _); [discriminate|]. intros [= <- <-].
  rewrite passSizes_dedupSizes. split.
  - rewrite ColumnSize_zero_wrapSize, fold_dedupSizes. cbn zeta.
    rewrite difference_empty_L, !Z.add_0_l. reflexivity.
  - rewrite Hcolumns, dedupSizes_app. cbn [dedupSizes].
    rewrite union_empty_r_L. apply insertSizes_lookup.
    rewrite <- (map_map fst name), map_fst_dedupSizes. exact Hlast.
Qed.

(** C7, as the code has it.  In a build without [NDEBUG], for a part with a
    non-zero row count, when the size that the pass computes for a column
    of a numeric type without subtypes and with the default serialization
    kind gives a row count other than the row count of the part,
    [calculateEachColumnSizes] throws [LOGICAL_ERROR]; its arguments name
    the first column, in the order of the part, that fails the check (no
    column before it in the pass fails it), the part and both row counts.
    The widths of numeric types are taken positive, as the division
    needs. *)
Theorem calculateEachColumnSizes_rows_mismatch (p : MergeTreeDataPartWide)
    (each_columns_size : gmap string ColumnSize) (total_size : ColumnSize)
    (column : NameAndTypePair) (size : ColumnSize) :
  NDEBUG = false ->
  rows_count p <> 0 ->
  (forall c, c ∈ columns p -> isValueRepresentedByNumber (type c) = true ->
             0 < getSizeOfValueInMemory (type c)) ->
  (column, size) ∈ passSizes p ->
  isValueRepresentedByNumber (type column) = true ->
  haveSubtypes (type column) = false ->
  getKind (getSerialization p (name column)) = DEFAULT ->
  data_uncompressed size / getSizeOfValueInMemory (type column) <> rows_count p ->
  exists e cs earlier later,
    calculateEachColumnSizes p each_columns_size total_size = Throw e
    /\ code e = LOGICAL_ERROR
    /\ passSizes p = (earlier ++ cs :: later)%list
    /\ Forall (fun cs' => rowsMismatch p cs' = false) earlier
    /\ rowsMismatch p cs = true
    /\ args e = [ArgStr (backQuote (name (fst cs))); ArgNum (rowsInColumn cs);
                 ArgStr (part_name p); ArgNum (rows_count p)].
Proof.
  intros Hdebug Hrows _ Hin Hnumber Hsubtypes Hkind Hmismatch.
  rewrite calculateEachColumnSizes_spec.
  destruct (find (rowsMismatch p) (passSizes p)) as [cs|] eqn:Hfind.
  - apply find_Some_split in Hfind as (earlier & later & Hsplit & Hearlier & Hbad).
    exists (rowsException p cs), cs, earlier, later.
    repeat split; try reflexivity; assumption.
  - exfalso. apply list_elem_of_In in Hin.
    pose proof (find_none _ _ Hfind _ Hin) as Hgood.
    unfold rowsMismatch, isTrivialColumn, rowsInColumn in Hgood. cbn [fst snd] in Hgood.
    rewrite Hdebug, Hnumber, Hsubtypes, Hkind in Hgood.
    rewrite (bool_decide_eq_false_2 _ Hrows) in Hgood.
    rewrite (bool_decide_eq_true_2 (DEFAULT = DEFAULT) eq_refl) in Hgood.
    rewrite (bool_decide_eq_false_2 _ Hmismatch) in Hgood. discriminate.
Qed.

(** What [hasColumnFiles] computes: every enumerated stream has both
    checksum entries under the name that [getFileNameForStream] gives,
    without [getFileNameOrHash]. *)
Lemma hasColumnFiles_spec (p : MergeTreeDataPartWide) (column : NameAndTypePair) :
  hasColumnFiles p column = true
  <-> Forall (fun substream_path =>
                check_stream_exists p
                  (getFileExtension (mark_type (index_granularity_info p)))
                  (getFileNameForStream column substream_path) = true)
        (streams (getSerialization p (name column))).
Proof.
  unfold hasColumnFiles, enumerateStreams.
  set (ext := getFileExtension (mark_type (index_granularity_info p))).
  set (step := fun (res : bool) substream_path =>
    if negb (check_stream_exists p ext (getFileNameForStream column substream_path))
    then false else res).
  assert (Hfalse : forall paths, fold_left step paths false = false).
  { induction paths as [|path paths IH]; [reflexivity|].
    cbn [fold_left]. unfold step at 2. destruct (negb _); exact IH. }
  induction (streams (getSerialization p (name column))) as [|path paths IH].
  - split; [constructor | reflexivity].
  - cbn [fold_left]. unfold step at 2.
    destruct (check_stream_exists p ext (getFileNameForStream column path)) eqn:Hpath;
      cbn [negb].
    + rewrite IH. split; [intros Hall; constructor; assumption|].
      intros Hall. inversion Hall; assumption.
    + rewrite Hfalse. split; [discriminate|].
      intros Hall. inversion Hall; congruence.
Qed.

End SizeTheorems.

(** ** The theorems on the scenarios *)

Section ScenarioFacts.
Import Scenarios.
#[local] Existing Instance scenario.

(** Scenario A. *)
Lemma loadIndexGranularityImpl_fixed_format_witness :
  exists table,
    loadIndexGranularityImpl empty_granularity fixedInfo storageA "x"
      = Ok (table, fixedInfo)
    /\ getMarkSizeInBytes fixedInfo = 16
    /\ getMarksCount table = 48 / 16
    /\ Forall (fun rows => rows = 8192) (marks_rows table)
    /\ initialized table = true.
Proof.
  refine (loadIndexGranularityImpl_fixed_format empty_granularity fixedInfo storageA "x"
            (encodeMarks false [zeroMark; zeroMark; zeroMark]) _ _ _);
    vm_compute; reflexivity.
Defined.

(** Scenario B: the decoded table is [100; 250; 17]. *)
Lemma loadIndexGranularityImpl_stream_format_witness :
  exists table,
    loadIndexGranularityImpl empty_granularity adaptiveInfo storageB "x"
      = Ok (table, adaptiveInfo)
    /\ getMarksCount table = 3
    /\ marks_rows table = [100; 250; 17]
    /\ initialized table = true.
Proof.
  refine (loadIndexGranularityImpl_stream_format adaptiveInfo storageB "x"
            (encodeMarks true marksB) marksB _ _ _ _ _).
  - reflexivity.
  - vm_compute. reflexivity.
  - reflexivity.
  - repeat constructor; discriminate.
  - reflexivity.
Defined.

(** A part with a column and no marks file. *)
Lemma loadIndexGranularity_missing_marks_file_witness :
  loadIndexGranularity partNoMarks =
    Throw (mkException NO_FILE_IN_DATA_PART "Marks file '{}' doesn't exist"
             [ArgStr "/data/all_1_1_0/siphash(x).mrk2"])
  /\ forall loaded, loadIndexGranularity partNoMarks <> Ok loaded.
Proof.
  refine (loadIndexGranularity_missing_marks_file partNoMarks columnX [] _ _);
    vm_compute; reflexivity.
Defined.

(** Scenario D: the check names the column [y] and the file [y.mrk2]. *)
Lemma checkConsistency_requires_both_checksums_witness :
  exists e column substream_path file,
    checkConsistency partD true = Throw e
    /\ (column, substream_path) ∈ columnStreams partD
    /\ (file = marksChecksumName partD column substream_path
          /\ ~ hasMarksChecksum partD column substream_path
        \/ file = dataChecksumName partD column substream_path
          /\ ~ hasDataChecksum partD column substream_path)
    /\ code e = NO_FILE_IN_DATA_PART
    /\ args e = [ArgStr file; ArgStr (name column);
                 ArgStr (getFullPath (getDataPartStorage partD))].
Proof.
  refine (proj2 (checkConsistency_requires_both_checksums partD _ _) _).
  - vm_compute. reflexivity.
  - reflexivity.
  - exists columnY, [Values]. split.
    + apply list_elem_of_further, list_elem_of_here.
    + intros [[entry Hentry] _]. vm_compute in Hentry. discriminate.
Defined.

(** Scenario C: mark files of 48 and 32 bytes. *)
Lemma checkConsistency_marks_sizes_witness :
  existingMarksSizes partC = [48; 32]
  /\ exists e, checkConsistency partC false = Throw e
               /\ code e = BAD_SIZE_OF_FILE_IN_DATA_PART.
Proof.
  split; [vm_compute; reflexivity|].
  refine (proj2 (checkConsistency_marks_sizes partC false _ _) _).
  - vm_compute. reflexivity.
  - reflexivity.
  - right. exists 48, 32. repeat split.
    + change (existingMarksSizes partC) with [48; 32]. apply list_elem_of_here.
    + change (existingMarksSizes partC) with [48; 32].
      apply list_elem_of_further, list_elem_of_here.
    + discriminate.
Defined.

(** A part without rows, in a debug build. *)
Lemma calculateEachColumnSizes_zero_rows_witness :
  exists each,
    calculateEachColumnSizes partNoRows ∅ ColumnSize_zero
    = Ok (each, mkColumnSize 72 500 7992).
Proof.
  eexists.
  refine (calculateEachColumnSizes_zero_rows partNoRows ∅ ColumnSize_zero _).
  reflexivity.
Defined.

(** The nested table: the total is the sum of the two recorded sizes. *)
Lemma calculateEachColumnSizes_total_is_sum_witness :
  exists each total sizes,
    calculateEachColumnSizes partNested ∅ ColumnSize_zero = Ok (each, total)
    /\ Forall2 (fun column size => each !! name column = Some size)
         (columns partNested) sizes
    /\ marks total = wrap64 (sumZ (map marks sizes))
    /\ data_compressed total = wrap64 (sumZ (map data_compressed sizes))
    /\ data_uncompressed total = wrap64 (sumZ (map data_uncompressed sizes)).
Proof.
  destruct (calculateEachColumnSizes partNested ∅ ColumnSize_zero)
    as [[each total]|e] eqn:Hcalc; [|vm_compute in Hcalc; discriminate].
  assert (Hnodup : NoDup (map name (columns partNested))).
  { apply NoDup_cons. split; [|apply NoDup_singleton].
    intros Hin. apply list_elem_of_singleton in Hin. discriminate. }
  destruct (proj2 (calculateEachColumnSizes_total_is_sum partNested Hnodup)
              each total Hcalc) as [sizes Hsizes].
  exists each, total, sizes. split; [reflexivity | exact Hsizes].
Defined.

(** The nested table: the shared stream of the sizes is in the size of
    [n.a] and not in the size of [n.b]. *)
Lemma calculateEachColumnSizes_shared_streams_witness :
  exists each total,
    calculateEachColumnSizes partNested ∅ ColumnSize_zero = Ok (each, total)
    /\ total = sizeOfStreams partNested (streamNamesOf partNested (columns partNested))
    /\ each !! "n.b"
       = Some (sizeOfStreams partNested
                 (streamNames partNested columnNB ∖ streamNamesOf partNested [columnNA])).
Proof.
  destruct (calculateEachColumnSizes partNested ∅ ColumnSize_zero)
    as [[each total]|e] eqn:Hcalc; [|vm_compute in Hcalc; discriminate].
  exists each, total. split; [reflexivity|].
  refine (calculateEachColumnSizes_shared_streams partNested [columnNA] [] columnNB
            each total _ _ Hcalc).
  - reflexivity.
  - intros Hin. apply elem_of_nil in Hin. exact Hin.
Defined.

(** The nested table: the size recorded for [n.b] lacks the bytes of the
    shared stream of the sizes. *)
Lemma sharedStreamsClaim_counterexample : ~ sharedStreamsClaim partNested.
Proof.
  intros Hclaim.
  destruct (calculateEachColumnSizes partNested ∅ ColumnSize_zero)
    as [[each total]|e] eqn:Hcalc; [|vm_compute in Hcalc; discriminate].
  destruct (Hclaim each total Hcalc) as [_ Hcolumns].
  assert (Hin : columnNB ∈ columns partNested).
  { apply list_elem_of_further, list_elem_of_here. }
  specialize (Hcolumns columnNB Hin).
  vm_compute in Hcalc. injection Hcalc as <- <-.
  vm_compute in Hcolumns. discriminate.
Qed.

(** Scenario E: 7992 bytes of 8-byte values are 999 rows, the part has
    1000. *)
Lemma calculateEachColumnSizes_rows_mismatch_witness :
  exists e cs earlier later,
    calculateEachColumnSizes partE ∅ ColumnSize_zero = Throw e
    /\ code e = LOGICAL_ERROR
    /\ passSizes partE = (earlier ++ cs :: later)%list
    /\ Forall (fun cs' => rowsMismatch partE cs' = false) earlier
    /\ rowsMismatch partE cs = true
    /\ args e = [ArgStr (backQuote (name (fst cs))); ArgNum (rowsInColumn cs);
                 ArgStr (part_name partE); ArgNum (rows_count partE)].
Proof.
  refine (calculateEachColumnSizes_rows_mismatch partE ∅ ColumnSize_zero columnX
            (mkColumnSize 72 500 7992) _ _ _ _ _ _ _ _).
  - reflexivity.
  - discriminate.
  - intros c Hc _. apply list_elem_of_singleton in Hc. rewrite Hc. reflexivity.
  - change (passSizes partE) with [(columnX, mkColumnSize 72 500 7992)].
    apply list_elem_of_here.
  - reflexivity.
  - reflexivity.
  - reflexivity.
  - discriminate.
Defined.

(** A part without rows whose numeric column has 999 values: the derived
    row count differs from the row count of the part and nothing is
    thrown. *)
Lemma rowsCheckClaim_counterexample : ~ rowsCheckClaim partNoRows.
Proof.
  intros Hclaim.
  destruct (Hclaim columnX (mkColumnSize 72 500 7992)) as (e & Hthrow & _).
  - change (passSizes partNoRows) with [(columnX, mkColumnSize 72 500 7992)].
    apply list_elem_of_here.
  - reflexivity.
  - reflexivity.
  - reflexivity.
  - discriminate.
  - vm_compute in Hthrow. discriminate.
Qed.

(** C6.  [hasColumnFiles] looks the checksums up under the literal stream
    name and not under the name that [getFileNameOrHash] gives, as
    [checkConsistency] and [getColumnSizeImpl] do: for a column whose files
    are registered under the hash of the stream name, every enumerated
    stream has both entries and the consistency check passes, and
    [hasColumnFiles] is false. *)
Theorem hasColumnFiles_misses_hashed_names :
  (forall substream_path,
     substream_path ∈ streams (getSerialization partHashed (name columnLong)) ->
     hasMarksChecksum partHashed columnLong substream_path
     /\ hasDataChecksum partHashed columnLong substream_path)
  /\ checkConsistency partHashed true = Ok tt
  /\ hasColumnFiles partHashed columnLong = false.
Proof.
  split; [|split; vm_compute; reflexivity].
  intros substream_path Hin. apply list_elem_of_singleton in Hin. subst.
  split; eexists; vm_compute; reflexivity.
Qed.

End ScenarioFacts.

(** ** Further properties of the loader *)

Section FurtherLoading.
Context `{Collaborators}.

Lemma getFileNameForColumn_loop (p : MergeTreeDataPartWide) (column : NameAndTypePair)
    (paths : list SubstreamPath) :
  forall filename : string,
    fold_left
      (fun (filename : string) substream_path =>
         if bool_decide (filename = "")
         then getFileNameOrHash (checksums p) (getFileNameForStream column substream_path)
         else filename)
      paths filename
    = if bool_decide (filename = "")
      then default "" (head (filter (fun n => n <> "")
                               (map (resolvedStreamName p column) paths)))
      else filename.
Proof.
  induction paths as [|path paths IH]; intros filename.
  - cbn [fold_left map]. case_bool_decide; [subst; reflexivity | reflexivity].
  - cbn [fold_left map]. rewrite IH, filter_cons.
    fold (resolvedStreamName p column path).
    destruct (bool_decide (filename = "")) eqn:Hfilename.
    + destruct (decide (resolvedStreamName p column path <> "")) as [Hname|Hname].
      * rewrite bool_decide_eq_false_2 by exact Hname. reflexivity.
      * rewrite bool_decide_eq_true_2; [reflexivity|].
        destruct (decide (resolvedStreamName p column path = "")); tauto.
    + rewrite Hfilename. reflexivity.
Qed.

(** X1.  [getFileNameForColumn] gives the resolved name of the first
    enumerated stream whose resolved name is not empty, and the empty string
    when the column has no such stream. *)
Theorem getFileNameForColumn_first_nonempty (p : MergeTreeDataPartWide)
    (column : NameAndTypePair) :
  getFileNameForColumn p column
  = default "" (head (filter (fun n => n <> "") (streamNameList p column))).
Proof.
  unfold getFileNameForColumn, enumerateStreams, streamNameList.
  rewrite getFileNameForColumn_loop. reflexivity.
Qed.

(** X2.  For a part without columns [loadIndexGranularity] throws
    [NO_FILE_IN_DATA_PART] naming the part, whatever files the storage
    holds. *)
Theorem loadIndexGranularity_no_columns (p : MergeTreeDataPartWide) :
  columns p = [] ->
  loadIndexGranularity p =
    Throw (mkException NO_FILE_IN_DATA_PART "No columns in part {}"
             [ArgStr (part_name p)]).
Proof. intros Hcolumns. unfold loadIndexGranularity. rewrite Hcolumns. reflexivity. Qed.

(** X3.  [loadIndexGranularityImpl] works on the table it is given: in an
    adaptive format the granularities read are appended after the entries
    that the table already has, in a compressed format that is not adaptive
    the earlier entries are replaced. *)
Theorem loadIndexGranularityImpl_appends
    (index_granularity_ : MergeTreeIndexGranularity)
    (index_granularity_info_ : MergeTreeIndexGranularityInfo)
    (data_part_storage_ : IDataPartStorage) (any_column_file_name : string)
    (marks_file : list byte) (ms : list MarkRecord) :
  let info := changeGranularityIfRequired index_granularity_info_ data_part_storage_ in
  adaptive (mark_type info) || compressed (mark_type info) = true ->
  storage_files data_part_storage_ !! getMarksFilePath info any_column_file_name
    = Some marks_file ->
  (if compressed (mark_type info)
   then CompressedReadBufferFromFile marks_file
   else Ok marks_file) = Ok (encodeMarks (adaptive (mark_type info)) ms) ->
  Forall (fun m => isUInt64 (granularity m)) ms ->
  Z.of_nat (length ms) < 2 ^ 64 ->
  exists table,
    loadIndexGranularityImpl index_granularity_ index_granularity_info_
      data_part_storage_ any_column_file_name = Ok (table, info)
    /\ marks_rows table =
         (if adaptive (mark_type info)
          then (marks_rows index_granularity_ ++ map granularity ms)%list
          else repeat (fixed_index_granularity info) (length ms)).
Proof.
  intros info Hformat Hfile Hreader Hrange Hcount.
  unfold loadIndexGranularityImpl. fold info.
  unfold exists_, getFileSize, readFile. rewrite Hfile.
  rewrite bool_decide_eq_true_2 by eauto. cbn [negb].
  rewrite bind_Ok.
  assert (Hbranch : negb (adaptive (mark_type info))
                    && negb (compressed (mark_type info)) = false).
  { destruct (adaptive (mark_type info)), (compressed (mark_type info));
      simpl in *; congruence. }
  rewrite Hbranch, bind_Ok.
  assert (Hreader' : (if negb (compressed (mark_type info))
                      then Ok marks_file
                      else CompressedReadBufferFromFile marks_file)
                     = Ok (encodeMarks (adaptive (mark_type info)) ms)).
  { destruct (compressed (mark_type info)); exact Hreader. }
  rewrite Hreader', bind_Ok.
  rewrite readMarks_encodeMarks; [| lia | unfold isUInt64; lia].
  rewrite bind_Ok. cbn beta iota. rewrite Z.add_0_l.
  rewrite wrap64_small by (unfold isUInt64; lia).
  assert (Hmap : map (fun m => wrap64 (granularity m)) ms = map granularity ms).
  { apply map_ext_Forall. eapply Forall_impl; [exact Hrange|].
    intros m Hm. apply wrap64_small. exact Hm. }
  destruct (adaptive (mark_type info)); cbn [negb]; rewrite bind_Ok;
    eexists; (split; [reflexivity|]);
    cbn [setInitialized resizeWithFixedGranularity appendMarks marks_rows].
  - rewrite Hmap. reflexivity.
  - rewrite Nat2Z.id. reflexivity.
Qed.

(** X4.  In the format that is neither adaptive nor compressed the marks
    file is not read and its size is not checked against the record size:
    a file of [n] records of 16 bytes and fewer than 16 more bytes gives a
    table of [n] entries, and no exception. *)
Theorem loadIndexGranularityImpl_fixed_remainder
    (index_granularity_ : MergeTreeIndexGranularity)
    (index_granularity_info_ : MergeTreeIndexGranularityInfo)
    (data_part_storage_ : IDataPartStorage) (any_column_file_name : string)
    (marks_file : list byte) (n remainder : nat) :
  let info := changeGranularityIfRequired index_granularity_info_ data_part_storage_ in
  adaptive (mark_type info) = false ->
  compressed (mark_type info) = false ->
  storage_files data_part_storage_ !! getMarksFilePath info any_column_file_name
    = Some marks_file ->
  length marks_file = (16 * n + remainder)%nat ->
  (remainder < 16)%nat ->
  loadIndexGranularityImpl index_granularity_ index_granularity_info_
    data_part_storage_ any_column_file_name
  = Ok ({| marks_rows := repeat (fixed_index_granularity info) n;
           initialized := true |}, info).
Proof.
  intros info Hadaptive Hcompressed Hfile Hlength Hremainder.
  unfold loadIndexGranularityImpl. fold info.
  unfold exists_, getFileSize. rewrite Hfile.
  rewrite bool_decide_eq_true_2 by eauto. cbn [negb].
  rewrite bind_Ok, Hadaptive, Hcompressed. cbn [negb andb].
  rewrite bind_Ok.
  unfold getMarkSizeInBytes. rewrite Hadaptive, Hlength.
  replace (Z.of_nat (16 * n + remainder) / 16) with (Z.of_nat n).
  - unfold setInitialized, resizeWithFixedGranularity. cbn [marks_rows initialized].
    rewrite Nat2Z.id. reflexivity.
  - apply (Z.div_unique_pos _ 16 (Z.of_nat n) (Z.of_nat remainder)); lia.
Qed.

End FurtherLoading.

(** ** Further properties of the consistency check *)


Section FurtherConsistency.
Context `{Collaborators}.

Lemma elem_of_columnStreams (p : MergeTreeDataPartWide) (column : NameAndTypePair)
    (substream_path : SubstreamPath) :
  (column, substream_path) ∈ columnStreams p
  <-> column ∈ columns p
      /\ substream_path ∈ streams (getSerialization p (name column)).
Proof.
  unfold columnStreams. rewrite !list_elem_of_In, in_flat_map. split.
  - intros (column' & Hcolumn & Hpair). apply in_map_iff in Hpair.
    destruct Hpair as (path' & [= <- <-] & Hpath). auto.
  - intros [Hcolumn Hpath]. exists column. split; [exact Hcolumn|].
    apply in_map. exact Hpath.
Qed.

(** X5.  With checksums and without [require_part_metadata] the check is
    the base check alone: no checksum entry and no file is looked at. *)
Theorem checkConsistency_metadata_not_required (p : MergeTreeDataPartWide) :
  checksums_empty (checksums p) = false ->
  checkConsistency p false = checkConsistencyBase p.
Proof.
  intros Hchecksums. unfold checkConsistency. rewrite Hchecksums. cbn [negb].
  destruct (checkConsistencyBase p) as [[]|e]; reflexivity.
Qed.

(** X6.  The check with [require_part_metadata] stops at the first stream,
    in the order of the columns and of their enumerations, that lacks an
    entry: the exception names the mark-file entry when that one is missing,
    and the data-file entry only when the mark-file entry is there. *)
Theorem checkConsistency_first_missing_checksum (p : MergeTreeDataPartWide)
    (earlier later : list (NameAndTypePair * SubstreamPath))
    (column : NameAndTypePair) (substream_path : SubstreamPath) :
  checksums_empty (checksums p) = false ->
  checkConsistencyBase p = Ok tt ->
  columnStreams p = (earlier ++ (column, substream_path) :: later)%list ->
  Forall (fun cs => hasMarksChecksum p (fst cs) (snd cs)
                    /\ hasDataChecksum p (fst cs) (snd cs)) earlier ->
  (~ hasMarksChecksum p column substream_path ->
   checkConsistency p true = Throw (noMarksChecksumException p column substream_path))
  /\ (hasMarksChecksum p column substream_path ->
      ~ hasDataChecksum p column substream_path ->
      checkConsistency p true = Throw (noDataChecksumException p column substream_path)).
Proof.
  intros Hchecksums Hbase Hsplit Hearlier.
  rewrite (checkConsistency_checksums_loop p Hchecksums Hbase), Hsplit, foldM_app.
  assert (Hprefix :
    foldM (fun s cs =>
             checkConsistency_checksums_callback p
               (getFileExtension (mark_type (index_granularity_info p)))
               (fst cs) s (snd cs)) tt earlier = Ok tt).
  { apply foldM_unit_Ok. eapply Forall_impl; [exact Hearlier|].
    intros cs Hcs. apply checksums_callback_Ok. exact Hcs. }
  rewrite Hprefix, bind_Ok. cbn [foldM fst snd].
  unfold checkConsistency_checksums_callback, hasMarksChecksum, hasDataChecksum,
    noMarksChecksumException, noDataChecksumException, marksChecksumName,
    dataChecksumName, resolvedStreamName, files_contains.
  split.
  - intros Hmarks. rewrite (bool_decide_eq_false_2 _ Hmarks). reflexivity.
  - intros Hmarks Hdata.
    rewrite (bool_decide_eq_true_2 _ Hmarks), (bool_decide_eq_false_2 _ Hdata).
    reflexivity.
Qed.


Lemma hasColumnFiles_literal (p : MergeTreeDataPartWide) (column : NameAndTypePair) :
  hasColumnFiles p column = true
  <-> forall substream_path,
        substream_path ∈ streams (getSerialization p (name column)) ->
        hasLiteralChecksums p column substream_path.
Proof.
  rewrite hasColumnFiles_spec, Forall_forall.
  unfold check_stream_exists, hasLiteralChecksums, files_contains.
  split; intros Hall path Hpath; specialize (Hall path Hpath).
  - apply andb_true_iff in Hall as [Hdata Hmarks].
    apply bool_decide_eq_true in Hdata. apply bool_decide_eq_true in Hmarks. auto.
  - destruct Hall as [Hdata Hmarks]. apply andb_true_iff.
    split; apply bool_decide_eq_true; assumption.
Qed.

(** X8.  [hasColumnFiles] is true exactly when every enumerated stream of
    the column has its data-file and its mark-file entry under the name
    that [getFileNameForStream] gives; a column without streams has its
    files. *)
Theorem hasColumnFiles_iff_literal_checksums (p : MergeTreeDataPartWide)
    (column : NameAndTypePair) :
  (hasColumnFiles p column = true
   <-> forall substream_path,
         substream_path ∈ streams (getSerialization p (name column)) ->
         hasLiteralChecksums p column substream_path)
  /\ (streams (getSerialization p (name column)) = [] ->
      hasColumnFiles p column = true).
Proof.
  assert (Hiff : hasColumnFiles p column = true
                 <-> forall substream_path,
                       substream_path ∈ streams (getSerialization p (name column)) ->
                       hasLiteralChecksums p column substream_path).
  { rewrite hasColumnFiles_spec, Forall_forall.
    unfold check_stream_exists, hasLiteralChecksums, files_contains.
    split; intros Hall path Hpath; specialize (Hall path Hpath).
    - apply andb_true_iff in Hall as [Hdata Hmarks].
      apply bool_decide_eq_true in Hdata. apply bool_decide_eq_true in Hmarks. auto.
    - destruct Hall as [Hdata Hmarks]. apply andb_true_iff.
      split; apply bool_decide_eq_true; assumption. }
  split; [exact Hiff|].
  intros Hnone. apply Hiff. rewrite Hnone.
  intros path Hpath. apply elem_of_nil in Hpath. contradiction.
Qed.

(** X9.  With an empty checksum index [hasColumnFiles] is false for every
    column that enumerates a stream. *)
Theorem hasColumnFiles_empty_checksums (p : MergeTreeDataPartWide)
    (column : NameAndTypePair) :
  checksums_empty (checksums p) = true ->
  (hasColumnFiles p column = true
   <-> streams (getSerialization p (name column)) = []).
Proof.
  intros Hempty. apply bool_decide_eq_true in Hempty.
  rewrite hasColumnFiles_literal. unfold hasLiteralChecksums.
  rewrite Hempty. split.
  - intros Hall. destruct (streams (getSerialization p (name column))) as [|path paths];
      [reflexivity|].
    destruct (Hall path (list_elem_of_here _ _)) as [[entry Hentry] _].
    rewrite lookup_empty in Hentry. discriminate.
  - intros -> path Hpath. apply elem_of_nil in Hpath. contradiction.
Qed.

(** X10.  When the checksums register every stream of the part under its
    literal name, the check with [require_part_metadata] passes exactly when
    [hasColumnFiles] holds for every column of the part. *)
Theorem checkConsistency_iff_hasColumnFiles (p : MergeTreeDataPartWide) :
  checksums_empty (checksums p) = false ->
  checkConsistencyBase p = Ok tt ->
  (forall column substream_path,
     (column, substream_path) ∈ columnStreams p ->
     resolvedStreamName p column substream_path
     = getFileNameForStream column substream_path) ->
  (checkConsistency p true = Ok tt
   <-> forall column, column ∈ columns p -> hasColumnFiles p column = true).
Proof.
  intros Hchecksums Hbase Hliteral.
  rewrite (checkConsistency_checksums_loop p Hchecksums Hbase).
  rewrite foldM_unit_Ok, Forall_forall.
  assert (Hsame : forall column path,
            (column, path) ∈ columnStreams p ->
            (hasMarksChecksum p column path /\ hasDataChecksum p column path
             <-> hasLiteralChecksums p column path)).
  { intros column path Hin.
    unfold hasMarksChecksum, hasDataChecksum, hasLiteralChecksums,
      marksChecksumName, dataChecksumName.
    rewrite (Hliteral column path Hin). tauto. }
  split.
  - intros Hall column Hcolumn. apply hasColumnFiles_literal.
    intros path Hpath.
    assert (Hin : (column, path) ∈ columnStreams p).
    { apply elem_of_columnStreams. auto. }
    apply (Hsame column path Hin). apply checksums_callback_Ok. apply (Hall _ Hin).
  - intros Hall [column path] Hin. apply checksums_callback_Ok. cbn [fst snd].
    apply (Hsame column path Hin).
    apply elem_of_columnStreams in Hin as [Hcolumn Hpath].
    apply (proj1 (hasColumnFiles_literal p column) (Hall column Hcolumn)).
    exact Hpath.
Qed.

End FurtherConsistency.

(** ** Further properties of the column sizes *)

Lemma wrap64_add_r (a b : Z) : wrap64 (a + wrap64 b) = wrap64 (a + b).
Proof. unfold wrap64. apply Zplus_mod_idemp_r. Qed.

Lemma wrapSize_valid (size : ColumnSize) :
  ColumnSize_valid size ->
  size = wrapSize (marks size) (data_compressed size) (data_uncompressed size).
Proof.
  intros (Hm & Hc & Hu). destruct size as [m c u]. unfold wrapSize.
  cbn [marks data_compressed data_uncompressed] in *.
  rewrite !wrap64_small by assumption. reflexivity.
Qed.

Lemma setSum_list_to_set (f : string -> Z) (l : list string) :
  NoDup l -> setSum f (list_to_set l) = sumZ (map f l).
Proof.
  unfold sumZ. induction l as [|n l IH]; intros Hnodup.
  - apply setSum_empty.
  - apply NoDup_cons in Hnodup as [Hfresh Hnodup].
    cbn [list_to_set map foldr]. rewrite setSum_insert, IH by set_solver.
    reflexivity.
Qed.

Lemma sumZ_zero {A} (f : A -> Z) (l : list A) :
  (forall a, f a = 0) -> sumZ (map f l) = 0.
Proof.
  intros Hf. unfold sumZ. induction l as [|a l IH]; [reflexivity|].
  cbn [map foldr]. rewrite Hf, IH. reflexivity.
Qed.

Lemma find_first {A} (P : A -> bool) (earlier later : list A) (a : A) :
  Forall (fun a => P a = false) earlier -> P a = true ->
  find P (earlier ++ a :: later) = Some a.
Proof.
  intros Hearlier Ha. induction Hearlier as [|b earlier Hb _ IH]; cbn [app find].
  - rewrite Ha. reflexivity.
  - rewrite Hb. exact IH.
Qed.

Lemma find_None_Forall {A} (P : A -> bool) (l : list A) :
  find P l = None <-> Forall (fun a => P a = false) l.
Proof.
  induction l as [|a l IH]; cbn [find].
  - split; [constructor | reflexivity].
  - destruct (P a) eqn:Ha.
    + split; [discriminate|]. intros Hall. inversion Hall; congruence.
    + rewrite IH. split; [intros Hl; constructor; assumption|].
      intros Hall. inversion Hall; assumption.
Qed.

Lemma insertSizes_is_Some (sizes : list (NameAndTypePair * ColumnSize)) :
  forall (each : gmap string ColumnSize) (n : string),
    n ∈ map (fun cs => name (fst cs)) sizes ->
    is_Some (insertSizes each sizes !! n).
Proof.
  induction sizes as [|cs sizes IH]; intros each n Hn.
  - apply elem_of_nil in Hn. contradiction.
  - cbn [map] in Hn.
    destruct (decide (n ∈ map (fun cs => name (fst cs)) sizes)) as [Hrest|Hrest].
    + apply (IH (<[name (fst cs) := snd cs]> each) n Hrest).
    + apply elem_of_cons in Hn as [->|Hn]; [|contradiction].
      change (insertSizes each (cs :: sizes))
        with (insertSizes (<[name (fst cs) := snd cs]> each) sizes).
      rewrite insertSizes_lookup_ne by exact Hrest.
      rewrite lookup_insert_eq. eauto.
Qed.

Section FurtherColumnSizes.
Context `{Collaborators}.

Lemma getColumnSizeImpl_loop_None (p : MergeTreeDataPartWide) (column : NameAndTypePair)
    (paths : list SubstreamPath) :
  forall m c u : Z,
    fold_left (getColumnSizeImpl_callback p column) paths (wrapSize m c u, None)
    = (let names := map (resolvedStreamName p column) paths in
       wrapSize (m + sumZ (map (marksBytes p) names))
         (c + sumZ (map (compressedBytes p) names))
         (u + sumZ (map (uncompressedBytes p) names)),
       None).
Proof.
  unfold sumZ.
  induction paths as [|path paths IH]; intros m c u; cbn zeta.
  - cbn [fold_left map foldr]. rewrite !Z.add_0_r. reflexivity.
  - cbn [fold_left map foldr]. unfold getColumnSizeImpl_callback at 2.
    fold (resolvedStreamName p column path).
    rewrite addStreamSize_wrapSize, IH. cbn zeta. do 2 f_equal; lia.
Qed.

Lemma getColumnSizeImpl_general (p : MergeTreeDataPartWide) (column : NameAndTypePair)
    (processed : gset string) :
  getColumnSizeImpl p column (Some processed)
  = (sizeOfStreams p (streamNames p column ∖ processed),
     Some (if checksums_empty (checksums p) then processed
           else streamNames p column ∪ processed)).
Proof.
  destruct (checksums_empty (checksums p)) eqn:Hchecksums.
  - unfold getColumnSizeImpl. rewrite Hchecksums.
    rewrite sizeOfStreams_empty by exact Hchecksums. reflexivity.
  - apply getColumnSizeImpl_size. exact Hchecksums.
Qed.

Lemma calculateEachColumnSizes_Ok (p : MergeTreeDataPartWide)
    (each each' : gmap string ColumnSize) (total total' : ColumnSize) :
  calculateEachColumnSizes p each total = Ok (each', total') ->
  each' = insertSizes each (dedupSizes p ∅ (columns p))
  /\ total' = fold_left ColumnSize_add (map snd (dedupSizes p ∅ (columns p))) total.
Proof.
  rewrite calculateEachColumnSizes_spec, passSizes_dedupSizes.
  destruct (find _ _); [discriminate|]. intros [= <- <-]. auto.
Qed.

(** X11.  Without a set of processed substreams (a null pointer)
    [getColumnSizeImpl] adds the bytes of every enumerated stream, a stream
    that is enumerated twice counting twice, and returns no set. *)
Theorem getColumnSizeImpl_without_processed (p : MergeTreeDataPartWide)
    (column : NameAndTypePair) :
  getColumnSizeImpl p column None
  = (wrapSize (sumZ (map (marksBytes p) (streamNameList p column)))
       (sumZ (map (compressedBytes p) (streamNameList p column)))
       (sumZ (map (uncompressedBytes p) (streamNameList p column))),
     None).
Proof.
  unfold getColumnSizeImpl, enumerateStreams, streamNameList.
  destruct (checksums_empty (checksums p)) eqn:Hchecksums.
  - rewrite !sumZ_zero; [reflexivity| | |]; intros n; apply (bytes_empty p n Hchecksums).
  - rewrite ColumnSize_zero_wrapSize, getColumnSizeImpl_loop_None. cbn zeta.
    rewrite !Z.add_0_l. reflexivity.
Qed.

(** X12.  With a set of processed substreams [getColumnSizeImpl] returns
    the bytes of the streams of the column that are not in the set, each
    once, and adds the streams of the column to the set; with an empty
    checksum index the size is zero and the set is left as it is. *)
Theorem getColumnSizeImpl_with_processed (p : MergeTreeDataPartWide)
    (column : NameAndTypePair) (processed : gset string) :
  getColumnSizeImpl p column (Some processed)
  = (sizeOfStreams p (streamNames p column ∖ processed),
     Some (if checksums_empty (checksums p) then processed
           else streamNames p column ∪ processed))
  /\ (checksums_empty (checksums p) = true ->
      fst (getColumnSizeImpl p column (Some processed)) = ColumnSize_zero).
Proof.
  split.
  - destruct (checksums_empty (checksums p)) eqn:Hchecksums.
    + unfold getColumnSizeImpl. rewrite Hchecksums.
      rewrite sizeOfStreams_empty by exact Hchecksums. reflexivity.
    + apply getColumnSizeImpl_size. exact Hchecksums.
  - intros Hchecksums. unfold getColumnSizeImpl. rewrite Hchecksums. reflexivity.
Qed.

(** X13.  A column that has been counted counts for nothing the second
    time: [getColumnSizeImpl] called again with the set that its first call
    returned gives a zero size and the same set. *)
Theorem getColumnSizeImpl_twice (p : MergeTreeDataPartWide)
    (column : NameAndTypePair) (processed : gset string) :
  getColumnSizeImpl p column (snd (getColumnSizeImpl p column (Some processed)))
  = (ColumnSize_zero, snd (getColumnSizeImpl p column (Some processed))).
Proof.
  rewrite (getColumnSizeImpl_general p column processed). cbn [snd].
  rewrite getColumnSizeImpl_general.
  destruct (checksums_empty (checksums p)) eqn:Hchecksums.
  - rewrite sizeOfStreams_empty by exact Hchecksums. reflexivity.
  - replace (streamNames p column ∖ (streamNames p column ∪ processed))
      with (∅ : gset string) by (clear; set_solver).
    replace (streamNames p column ∪ (streamNames p column ∪ processed))
      with (streamNames p column ∪ processed) by (clear; set_solver).
    unfold sizeOfStreams. rewrite !setSum_empty. reflexivity.
Qed.

(** X14.  For a column whose enumerated streams have distinct resolved
    names, the size is the same with an empty set of processed substreams
    as without a set. *)
Theorem getColumnSizeImpl_distinct_streams (p : MergeTreeDataPartWide)
    (column : NameAndTypePair) :
  NoDup (streamNameList p column) ->
  fst (getColumnSizeImpl p column (Some ∅)) = fst (getColumnSizeImpl p column None).
Proof.
  intros Hnodup. rewrite getColumnSizeImpl_general. cbn [fst].
  unfold getColumnSizeImpl, enumerateStreams.
  destruct (checksums_empty (checksums p)) eqn:Hchecksums.
  - apply sizeOfStreams_empty. exact Hchecksums.
  - rewrite ColumnSize_zero_wrapSize, getColumnSizeImpl_loop_None. cbn zeta.
    cbn [fst]. rewrite difference_empty_L, !Z.add_0_l.
    unfold sizeOfStreams, streamNames. fold (streamNameList p column).
    rewrite !setSum_list_to_set by exact Hnodup. reflexivity.
Qed.

End FurtherColumnSizes.

(** ** Further properties of the pass over all columns *)

Lemma difference_disjoint_empty (X Y : gset string) : X ## Y -> X ∖ (Y ∪ ∅) = X.
Proof. set_solver. Qed.

Lemma insertSizes_constant (size : ColumnSize) (cols : list NameAndTypePair) :
  forall (each : gmap string ColumnSize) (n : string),
    n ∈ map name cols ->
    insertSizes each (map (fun column => (column, size)) cols) !! n = Some size.
Proof.
  induction cols as [|column cols IH]; intros each n Hn.
  - apply elem_of_nil in Hn. contradiction.
  - cbn [map] in *.
    change (insertSizes each ((column, size) :: map (fun column => (column, size)) cols))
      with (insertSizes (<[name column := size]> each)
              (map (fun column => (column, size)) cols)).
    destruct (decide (n ∈ map name cols)) as [Hrest|Hrest].
    + apply (IH _ n Hrest).
    + apply elem_of_cons in Hn as [->|Hn]; [|contradiction].
      rewrite insertSizes_lookup_ne.
      * apply lookup_insert_eq.
      * rewrite map_map. exact Hrest.
Qed.

Section FurtherPass.
Context `{Collaborators}.

Lemma names_dedupSizes (p : MergeTreeDataPartWide) (seen : gset string)
    (cols : list NameAndTypePair) :
  map (fun cs => name (fst cs)) (dedupSizes p seen cols) = map name cols.
Proof. rewrite <- (map_map fst name), map_fst_dedupSizes. reflexivity. Qed.

Lemma dedupSizes_empty_checksums (p : MergeTreeDataPartWide)
    (cols : list NameAndTypePair) :
  checksums_empty (checksums p) = true ->
  forall seen,
    dedupSizes p seen cols = map (fun column => (column, ColumnSize_zero)) cols.
Proof.
  intros Hchecksums. induction cols as [|column cols IH]; intros seen; [reflexivity|].
  cbn [dedupSizes map]. rewrite sizeOfStreams_empty by exact Hchecksums.
  rewrite IH. reflexivity.
Qed.

Lemma calculateEachColumnSizes_total_streams (p : MergeTreeDataPartWide)
    (each : gmap string ColumnSize) (total : ColumnSize) :
  calculateEachColumnSizes p ∅ ColumnSize_zero = Ok (each, total) ->
  total = sizeOfStreams p (streamNamesOf p (columns p)).
Proof.
  intros Hcalc. apply calculateEachColumnSizes_Ok in Hcalc as [_ ->].
  rewrite ColumnSize_zero_wrapSize, fold_dedupSizes. cbn zeta.
  rewrite difference_empty_L, !Z.add_0_l. reflexivity.
Qed.

Lemma streamNamesOf_Permutation (p : MergeTreeDataPartWide)
    (cols1 cols2 : list NameAndTypePair) :
  Permutation cols1 cols2 -> streamNamesOf p cols1 = streamNamesOf p cols2.
Proof.
  unfold streamNamesOf.
  induction 1 as [|column cols1 cols2 _ IH|column1 column2 cols|cols1 cols2 cols3 _ IH1 _ IH2];
    cbn [map union_list foldr].
  - reflexivity.
  - rewrite IH. reflexivity.
  - rewrite !(assoc_L (∪)), (comm_L (∪) (streamNames p column2)). reflexivity.
  - rewrite IH1. exact IH2.
Qed.

(** X15.  A pass of [calculateEachColumnSizes] that returns writes an
    entry for every column of the part and leaves the entries of all other
    names in [each_columns_size] as they were. *)
Theorem calculateEachColumnSizes_entries (p : MergeTreeDataPartWide)
    (each each' : gmap string ColumnSize) (total total' : ColumnSize) :
  calculateEachColumnSizes p each total = Ok (each', total') ->
  (forall n, n ∉ map name (columns p) -> each' !! n = each !! n)
  /\ (forall column, column ∈ columns p -> is_Some (each' !! name column)).
Proof.
  intros Hcalc. apply calculateEachColumnSizes_Ok in Hcalc as [-> _]. split.
  - intros n Hn. apply insertSizes_lookup_ne. rewrite names_dedupSizes. exact Hn.
  - intros column Hcolumn. apply insertSizes_is_Some. rewrite names_dedupSizes.
    apply list_elem_of_fmap_2. exact Hcolumn.
Qed.

(** X16.  A pass that returns adds to the total it is given the bytes of
    every distinct stream of the part, once: a total that is not zero at
    the start is kept and added to. *)
Theorem calculateEachColumnSizes_accumulates (p : MergeTreeDataPartWide)
    (each each' : gmap string ColumnSize) (total total' : ColumnSize) :
  ColumnSize_valid total ->
  calculateEachColumnSizes p each total = Ok (each', total') ->
  total' = ColumnSize_add total (sizeOfStreams p (streamNamesOf p (columns p))).
Proof.
  intros Hvalid Hcalc. apply calculateEachColumnSizes_Ok in Hcalc as [_ ->].
  rewrite (wrapSize_valid total Hvalid).
  rewrite fold_dedupSizes, ColumnSize_add_wrapSize. cbn zeta.
  rewrite difference_empty_L. unfold sizeOfStreams, wrapSize.
  cbn [marks data_compressed data_uncompressed].
  rewrite !wrap64_add_r. reflexivity.
Qed.

(** X17.  The total of a pass does not depend on the order of the columns
    of the part (the sizes recorded per column do). *)
Theorem calculateEachColumnSizes_total_order (p : MergeTreeDataPartWide)
    (cols : list NameAndTypePair)
    (each1 each2 : gmap string ColumnSize) (total1 total2 : ColumnSize) :
  Permutation (columns p) cols ->
  calculateEachColumnSizes p ∅ ColumnSize_zero = Ok (each1, total1) ->
  calculateEachColumnSizes (withColumns p cols) ∅ ColumnSize_zero = Ok (each2, total2) ->
  total1 = total2.
Proof.
  intros Hperm Hcalc1 Hcalc2.
  apply calculateEachColumnSizes_total_streams in Hcalc1.
  apply calculateEachColumnSizes_total_streams in Hcalc2.
  rewrite Hcalc1, Hcalc2. cbn [withColumns columns].
  change (sizeOfStreams (withColumns p cols) (streamNamesOf (withColumns p cols) cols))
    with (sizeOfStreams p (streamNamesOf p cols)).
  rewrite (streamNamesOf_Permutation p _ _ Hperm). reflexivity.
Qed.

(** X18.  With an empty checksum index a pass that returns records a zero
    size for every column and a zero total. *)
Theorem calculateEachColumnSizes_empty_checksums (p : MergeTreeDataPartWide)
    (each : gmap string ColumnSize) (total : ColumnSize) :
  checksums_empty (checksums p) = true ->
  calculateEachColumnSizes p ∅ ColumnSize_zero = Ok (each, total) ->
  total = ColumnSize_zero
  /\ forall column, column ∈ columns p -> each !! name column = Some ColumnSize_zero.
Proof.
  intros Hchecksums Hcalc. split.
  - rewrite (calculateEachColumnSizes_total_streams p each total Hcalc).
    apply sizeOfStreams_empty. exact Hchecksums.
  - apply calculateEachColumnSizes_Ok in Hcalc as [-> _].
    rewrite (dedupSizes_empty_checksums p (columns p) Hchecksums).
    intros column Hcolumn. apply insertSizes_constant.
    apply list_elem_of_fmap_2. exact Hcolumn.
Qed.

(** X19.  In a build without [NDEBUG] a part with an empty checksum index
    fails the check of the derived row count at its first column of a
    trivial type: the size of the column is zero, so the derived row count
    is zero while the part has rows. *)
Theorem calculateEachColumnSizes_empty_checksums_debug (p : MergeTreeDataPartWide)
    (each : gmap string ColumnSize) (total : ColumnSize)
    (earlier later : list NameAndTypePair) (column : NameAndTypePair) :
  NDEBUG = false ->
  checksums_empty (checksums p) = true ->
  columns p = (earlier ++ column :: later)%list ->
  Forall (fun c => isTrivialColumn p c = false) earlier ->
  isTrivialColumn p column = true ->
  0 < getSizeOfValueInMemory (type column) ->
  calculateEachColumnSizes p each total =
    Throw (mkException LOGICAL_ERROR
             "Column {} has rows count {} according to size in memory and size of single value, but data part {} has {} rows"
             [ArgStr (backQuote (name column)); ArgNum 0;
              ArgStr (part_name p); ArgNum (rows_count p)]).
Proof.
  intros Hdebug Hchecksums Hcolumns Hearlier Htrivial _.
  rewrite calculateEachColumnSizes_spec, passSizes_dedupSizes.
  rewrite (dedupSizes_empty_checksums p (columns p) Hchecksums), Hcolumns.
  rewrite map_app. cbn [map].
  rewrite (find_first (rowsMismatch p) _ _ (column, ColumnSize_zero)).
  - unfold rowsException, rowsInColumn. cbn [fst snd ColumnSize_zero data_uncompressed].
    rewrite Zdiv_0_l. reflexivity.
  - apply Forall_fmap. eapply Forall_impl; [exact Hearlier|].
    intros c Hc. unfold compose, rowsMismatch. cbn [fst].
    rewrite Hc, andb_false_r. reflexivity.
  - unfold rowsMismatch, rowsInColumn. cbn [fst snd ColumnSize_zero data_uncompressed].
    rewrite Hdebug, Htrivial, Zdiv_0_l. cbn [negb andb].
    unfold isTrivialColumn in Htrivial.
    destruct (bool_decide (rows_count p = 0)) eqn:Hrows; [discriminate|].
    apply bool_decide_eq_false in Hrows.
    rewrite bool_decide_eq_false_2 by congruence. reflexivity.
Qed.

(** X20.  [calculateEachColumnSizes] returns exactly when no column fails
    the check of the derived row count, and otherwise throws for the first
    column, in the order of the part, that fails it. *)
Theorem calculateEachColumnSizes_first_mismatch (p : MergeTreeDataPartWide)
    (each : gmap string ColumnSize) (total : ColumnSize) :
  ((exists result, calculateEachColumnSizes p each total = Ok result)
   <-> Forall (fun cs => rowsMismatch p cs = false) (passSizes p))
  /\ forall earlier later cs,
       passSizes p = (earlier ++ cs :: later)%list ->
       Forall (fun cs => rowsMismatch p cs = false) earlier ->
       rowsMismatch p cs = true ->
       calculateEachColumnSizes p each total = Throw (rowsException p cs).
Proof.
  rewrite calculateEachColumnSizes_spec. split.
  - rewrite <- find_None_Forall. destruct (find _ _) as [cs|].
    + split; [intros [result Hresult]|]; discriminate.
    + split; [reflexivity | eauto].
  - intros earlier later cs Hsplit Hearlier Hcs.
    rewrite Hsplit, (find_first _ _ _ _ Hearlier Hcs). reflexivity.
Qed.

(** X21.  A column that shares no stream with the columns before it is
    recorded by the pass with the size that [getColumnSizeImpl] gives it on
    its own. *)
Theorem calculateEachColumnSizes_unshared_column (p : MergeTreeDataPartWide)
    (before after : list NameAndTypePair) (column : NameAndTypePair)
    (each : gmap string ColumnSize) (total : ColumnSize) :
  columns p = (before ++ column :: after)%list ->
  name column ∉ map name after ->
  streamNames p column ## streamNamesOf p before ->
  calculateEachColumnSizes p ∅ ColumnSize_zero = Ok (each, total) ->
  each !! name column = Some (fst (getColumnSizeImpl p column (Some ∅))).
Proof.
  intros Hcolumns Hlast Hdisjoint Hcalc.
  apply calculateEachColumnSizes_Ok in Hcalc as [-> _].
  rewrite Hcolumns, dedupSizes_app. cbn [dedupSizes].
  rewrite insertSizes_lookup by (rewrite names_dedupSizes; exact Hlast).
  rewrite getColumnSizeImpl_general. cbn [fst].
  rewrite (difference_disjoint_empty _ _ Hdisjoint).
  replace (streamNames p column ∖ ∅) with (streamNames p column)
    by (symmetry; apply difference_empty_L).
  reflexivity.
Qed.

End FurtherPass.

(** ** Properties of the registration of the codec *)

Section FurtherCodec.
Import CodecZSTDQAT.
Variable Field : Type.
Variable safeGetUInt64 : Field -> CodecExcept Z.
Variable ZSTD_DEFAULT_LEVEL : Z.

Lemma toInt_small (v : Z) : 0 <= v mod 2 ^ 32 < 2 ^ 31 -> toInt v = v mod 2 ^ 32.
Proof.
  intros Hlow. unfold toInt. cbn zeta.
  destruct (Z.ltb_spec (v mod 2 ^ 32) (2 ^ 31)); [reflexivity | lia].
Qed.

Lemma toInt_level (v : Z) :
  1 <= toInt v <= 12 <-> 1 <= v mod 2 ^ 32 <= 12.
Proof.
  unfold toInt. cbn zeta.
  pose proof (Z.mod_pos_bound v (2 ^ 32) ltac:(lia)) as Hbound.
  destruct (Z.ltb_spec (v mod 2 ^ 32) (2 ^ 31)); lia.
Qed.

Lemma level_check (l : Z) :
  (l <? ZSTDQAT_SUPPORTED_MIN_LEVEL)%Z || (ZSTDQAT_SUPPORTED_MAX_LEVEL <? l)%Z = false
  <-> 1 <= l <= 12.
Proof.
  unfold ZSTDQAT_SUPPORTED_MIN_LEVEL, ZSTDQAT_SUPPORTED_MAX_LEVEL.
  rewrite orb_false_iff, !Z.ltb_ge. lia.
Qed.

(** X22.  The registered function returns a codec in two cases only:
    without arguments (a null pointer or no children) the codec has the
    default level, which is not checked; with one literal argument the
    codec has the level of the argument, between 1 and 12. *)
Theorem registerCodecZSTDQAT_returns
    (arguments : option (list (ASTChild Field))) (codec : CompressionCodecZSTDQAT) :
  registerCodecZSTDQAT Field safeGetUInt64 ZSTD_DEFAULT_LEVEL arguments = Returned codec
  <-> ((arguments = None \/ arguments = Some [])
       /\ codec = mkCodec ZSTD_DEFAULT_LEVEL)
      \/ (exists value v,
            arguments = Some [Literal value]
            /\ safeGetUInt64 value = Returned v
            /\ 1 <= toInt v <= 12
            /\ codec = mkCodec (toInt v)).
Proof.
  split.
  - destruct arguments as [[|child others]|]; cbn.
    + intros [= <-]. left. auto.
    + destruct others as [|other others]; cbn; [|discriminate].
      destruct child as [value|]; [|discriminate].
      destruct (safeGetUInt64 value) as [v|e] eqn:Hget; [|discriminate].
      destruct ((toInt v <? ZSTDQAT_SUPPORTED_MIN_LEVEL)%Z
                || (ZSTDQAT_SUPPORTED_MAX_LEVEL <? toInt v)%Z) eqn:Hcheck;
        [discriminate|].
      intros [= <-]. right. exists value, v.
      apply level_check in Hcheck. auto.
    + intros [= <-]. left. auto.
  - intros [[[-> | ->] ->] | (value & v & -> & Hget & Hlevel & ->)];
      [reflexivity | reflexivity |].
    cbn. rewrite Hget. apply level_check in Hlevel. rewrite Hlevel. reflexivity.
Qed.

(** X23.  Of a literal argument only the low 32 bits count, since the
    [UInt64] is cast to [int] before the check: the argument is accepted
    exactly when its value modulo [2^32] is between 1 and 12, and that is
    the level of the codec; any other value is refused with
    [ILLEGAL_CODEC_PARAMETER]. *)
Theorem registerCodecZSTDQAT_low_bits (value : Field) (v : Z) :
  safeGetUInt64 value = Returned v ->
  (1 <= v mod 2 ^ 32 <= 12 ->
   registerCodecZSTDQAT Field safeGetUInt64 ZSTD_DEFAULT_LEVEL (Some [Literal value])
   = Returned (mkCodec (v mod 2 ^ 32)))
  /\ (~ 1 <= v mod 2 ^ 32 <= 12 ->
      registerCodecZSTDQAT Field safeGetUInt64 ZSTD_DEFAULT_LEVEL (Some [Literal value])
      = Raised (mkCodecException ILLEGAL_CODEC_PARAMETER
                  "ZSTDQAT codec doesn't support level more than {} and lower than {} , given {}"
                  [ArgNum 12; ArgNum 1; ArgNum (toInt v)])).
Proof.
  intros Hget. cbn. rewrite Hget. split.
  - intros Hlevel. rewrite toInt_small by lia.
    rewrite (proj2 (level_check (v mod 2 ^ 32)) Hlevel). reflexivity.
  - intros Hlevel.
    destruct ((toInt v <? ZSTDQAT_SUPPORTED_MIN_LEVEL)%Z
              || (ZSTDQAT_SUPPORTED_MAX_LEVEL <? toInt v)%Z) eqn:Hcheck;
      [reflexivity|].
    apply level_check, toInt_level in Hcheck. contradiction.
Qed.

(** X24.  More than one argument is refused with
    [ILLEGAL_SYNTAX_FOR_CODEC_TYPE] and the number of arguments, before any
    argument is looked at. *)
Theorem registerCodecZSTDQAT_too_many_arguments (children : list (ASTChild Field)) :
  (1 < length children)%nat ->
  registerCodecZSTDQAT Field safeGetUInt64 ZSTD_DEFAULT_LEVEL (Some children)
  = Raised (mkCodecException ILLEGAL_SYNTAX_FOR_CODEC_TYPE
              "ZSTD_QAT codec must have 1 parameter, given {}"
              [ArgNum (Z.of_nat (length children))]).
Proof.
  intros Hmany. destruct children as [|child [|other others]]; cbn in Hmany; try lia.
  reflexivity.
Qed.

End FurtherCodec.

(** ** The further properties on the scenarios *)

Section FurtherScenarioFacts.
Import Scenarios.
#[local] Existing Instance scenario.

Lemma loadIndexGranularity_no_columns_witness :
  loadIndexGranularity partNoColumns =
    Throw (mkException NO_FILE_IN_DATA_PART "No columns in part {}"
             [ArgStr "all_1_1_0"]).
Proof. refine (loadIndexGranularity_no_columns partNoColumns _). reflexivity. Defined.

(** A table of two marks loaded again from the marks of scenario B. *)
Lemma loadIndexGranularityImpl_appends_witness :
  exists table,
    loadIndexGranularityImpl loadedGranularity adaptiveInfo storageB "x"
      = Ok (table, adaptiveInfo)
    /\ marks_rows table = [5; 6; 100; 250; 17].
Proof.
  refine (loadIndexGranularityImpl_appends loadedGranularity adaptiveInfo storageB "x"
            (encodeMarks true marksB) marksB _ _ _ _ _).
  - reflexivity.
  - vm_compute. reflexivity.
  - reflexivity.
  - repeat constructor; discriminate.
  - reflexivity.
Defined.

(** A marks file of 37 bytes gives two marks. *)
Lemma loadIndexGranularityImpl_fixed_remainder_witness :
  loadIndexGranularityImpl empty_granularity fixedInfo storageRemainder "x"
  = Ok ({| marks_rows := [8192; 8192]; initialized := true |}, fixedInfo).
Proof.
  refine (loadIndexGranularityImpl_fixed_remainder empty_granularity fixedInfo
            storageRemainder "x"
            (encodeMarks false [zeroMark; zeroMark] ++ repeat Init.Byte.x00 5)%list
            2 5 _ _ _ _ _).
  - reflexivity.
  - reflexivity.
  - vm_compute. reflexivity.
  - reflexivity.
  - lia.
Defined.

(** Scenario D passes when the metadata is not required. *)
Lemma checkConsistency_metadata_not_required_witness :
  checkConsistency partD false = Ok tt.
Proof.
  refine (checkConsistency_metadata_not_required partD _). vm_compute. reflexivity.
Defined.

Lemma checkConsistency_first_missing_checksum_witness :
  checkConsistency partD true
  = Throw (mkException NO_FILE_IN_DATA_PART
             "No {} file checksum for column {} in part {} "
             [ArgStr "y.mrk2"; ArgStr "y"; ArgStr "/data/all_1_1_0"]).
Proof.
  refine (proj1 (checkConsistency_first_missing_checksum partD
                   [(columnX, [Values])] [] columnY [Values] _ _ _ _) _).
  - vm_compute. reflexivity.
  - reflexivity.
  - reflexivity.
  - constructor; [|constructor]. split; eexists; vm_compute; reflexivity.
  - intros [entry Hentry]. vm_compute in Hentry. discriminate.
Defined.


Lemma hasColumnFiles_empty_checksums_witness :
  hasColumnFiles partNoChecksums columnX = true
  <-> streams (getSerialization partNoChecksums (name columnX)) = [].
Proof.
  refine (hasColumnFiles_empty_checksums partNoChecksums columnX _).
  vm_compute. reflexivity.
Defined.

Lemma checkConsistency_iff_hasColumnFiles_witness :
  checkConsistency partComplete true = Ok tt
  <-> forall column, column ∈ columns partComplete ->
                     hasColumnFiles partComplete column = true.
Proof.
  refine (checkConsistency_iff_hasColumnFiles partComplete _ _ _).
  - vm_compute. reflexivity.
  - reflexivity.
  - intros column path Hin.
    change (columnStreams partComplete)
      with [(columnX, [Values]); (columnY, [Values])] in Hin.
    apply elem_of_cons in Hin as [Hin|Hin].
    + injection Hin as -> ->. vm_compute. reflexivity.
    + apply list_elem_of_singleton in Hin. injection Hin as -> ->.
      vm_compute. reflexivity.
Defined.

Lemma getColumnSizeImpl_distinct_streams_witness :
  fst (getColumnSizeImpl partNested columnNA (Some ∅))
  = fst (getColumnSizeImpl partNested columnNA None).
Proof.
  refine (getColumnSizeImpl_distinct_streams partNested columnNA _).
  change (streamNameList partNested columnNA) with ["n.size0"; "n.a"].
  apply NoDup_cons. split; [|apply NoDup_singleton].
  intros Hin. apply list_elem_of_singleton in Hin. discriminate.
Defined.

Lemma calculateEachColumnSizes_entries_witness :
  exists each' total',
    calculateEachColumnSizes partNested {[ "other" := ColumnSize_zero ]} ColumnSize_zero
      = Ok (each', total')
    /\ (forall n, n ∉ map name (columns partNested) ->
                  each' !! n = ({[ "other" := ColumnSize_zero ]} : gmap string ColumnSize) !! n)
    /\ (forall column, column ∈ columns partNested -> is_Some (each' !! name column)).
Proof.
  destruct (calculateEachColumnSizes partNested {[ "other" := ColumnSize_zero ]}
              ColumnSize_zero) as [[each' total']|e] eqn:Hcalc;
    [|vm_compute in Hcalc; discriminate].
  exists each', total'. split; [reflexivity|].
  exact (calculateEachColumnSizes_entries partNested _ each' _ total' Hcalc).
Defined.

Lemma calculateEachColumnSizes_accumulates_witness :
  exists each' total',
    calculateEachColumnSizes partNested ∅ (mkColumnSize 1 2 3) = Ok (each', total')
    /\ total' = ColumnSize_add (mkColumnSize 1 2 3)
                  (sizeOfStreams partNested
                     (streamNamesOf partNested (columns partNested))).
Proof.
  destruct (calculateEachColumnSizes partNested ∅ (mkColumnSize 1 2 3))
    as [[each' total']|e] eqn:Hcalc; [|vm_compute in Hcalc; discriminate].
  exists each', total'. split; [reflexivity|].
  refine (calculateEachColumnSizes_accumulates partNested ∅ each' _ total' _ Hcalc).
  repeat split; vm_compute; congruence.
Defined.

Lemma calculateEachColumnSizes_total_order_witness :
  exists each1 each2 total,
    calculateEachColumnSizes partNested ∅ ColumnSize_zero = Ok (each1, total)
    /\ calculateEachColumnSizes (withColumns partNested [columnNB; columnNA]) ∅
         ColumnSize_zero = Ok (each2, total).
Proof.
  destruct (calculateEachColumnSizes partNested ∅ ColumnSize_zero)
    as [[each1 total1]|e] eqn:Hcalc1; [|vm_compute in Hcalc1; discriminate].
  destruct (calculateEachColumnSizes (withColumns partNested [columnNB; columnNA]) ∅
              ColumnSize_zero)
    as [[each2 total2]|e] eqn:Hcalc2; [|vm_compute in Hcalc2; discriminate].
  exists each1, each2, total1. split; [reflexivity|].
  rewrite (calculateEachColumnSizes_total_order partNested [columnNB; columnNA]
             each1 each2 total1 total2 (perm_swap _ _ _) Hcalc1 Hcalc2).
  reflexivity.
Defined.

Lemma calculateEachColumnSizes_empty_checksums_witness :
  exists each total,
    calculateEachColumnSizes partNoMarks ∅ ColumnSize_zero = Ok (each, total)
    /\ total = ColumnSize_zero
    /\ forall column, column ∈ columns partNoMarks ->
                      each !! name column = Some ColumnSize_zero.
Proof.
  destruct (calculateEachColumnSizes partNoMarks ∅ ColumnSize_zero)
    as [[each total]|e] eqn:Hcalc; [|vm_compute in Hcalc; discriminate].
  exists each, total. split; [reflexivity|].
  refine (calculateEachColumnSizes_empty_checksums partNoMarks each total _ Hcalc).
  vm_compute. reflexivity.
Defined.

Lemma calculateEachColumnSizes_empty_checksums_debug_witness :
  calculateEachColumnSizes partNoChecksums ∅ ColumnSize_zero =
    Throw (mkException LOGICAL_ERROR
             "Column {} has rows count {} according to size in memory and size of single value, but data part {} has {} rows"
             [ArgStr "`x`"; ArgNum 0; ArgStr "all_1_1_0"; ArgNum 1000]).
Proof.
  refine (calculateEachColumnSizes_empty_checksums_debug partNoChecksums ∅
            ColumnSize_zero [] [] columnX _ _ _ _ _ _).
  - reflexivity.
  - vm_compute. reflexivity.
  - reflexivity.
  - constructor.
  - reflexivity.
  - reflexivity.
Defined.

Lemma calculateEachColumnSizes_unshared_column_witness :
  exists each total,
    calculateEachColumnSizes partComplete ∅ ColumnSize_zero = Ok (each, total)
    /\ each !! "y" = Some (fst (getColumnSizeImpl partComplete columnY (Some ∅))).
Proof.
  destruct (calculateEachColumnSizes partComplete ∅ ColumnSize_zero)
    as [[each total]|e] eqn:Hcalc; [|vm_compute in Hcalc; discriminate].
  exists each, total. split; [reflexivity|].
  refine (calculateEachColumnSizes_unshared_column partComplete [columnX] [] columnY
            each total _ _ _ Hcalc).
  - reflexivity.
  - intros Hin. apply elem_of_nil in Hin. exact Hin.
  - apply elem_of_disjoint. intros n Hy Hx.
    change (streamNames partComplete columnY) with ({[ "y" ]} ∪ ∅ : gset string) in Hy.
    change (streamNamesOf partComplete [columnX])
      with (({[ "x" ]} ∪ ∅) ∪ ∅ : gset string) in Hx.
    apply elem_of_union in Hy as [Hy|Hy]; [|apply not_elem_of_empty in Hy; exact Hy].
    apply elem_of_singleton in Hy. subst n.
    apply elem_of_union in Hx as [Hx|Hx]; [|apply not_elem_of_empty in Hx; exact Hx].
    apply elem_of_union in Hx as [Hx|Hx]; [|apply not_elem_of_empty in Hx; exact Hx].
    apply elem_of_singleton in Hx. discriminate.
Defined.

(** The value [2^32 + 3] gives the level 3. *)
Lemma registerCodecZSTDQAT_low_bits_witness :
  CodecZSTDQAT.registerCodecZSTDQAT (Z + string) scenarioSafeGet 1
    (Some [CodecZSTDQAT.Literal (inl 4294967299)])
  = CodecZSTDQAT.Returned (CodecZSTDQAT.mkCodec 3).
Proof.
  refine (proj1 (registerCodecZSTDQAT_low_bits (Z + string) scenarioSafeGet 1
                   (inl 4294967299) 4294967299 _) _).
  - reflexivity.
  - vm_compute. split; discriminate.
Defined.

Lemma registerCodecZSTDQAT_too_many_arguments_witness :
  CodecZSTDQAT.registerCodecZSTDQAT (Z + string) scenarioSafeGet 1
    (Some [CodecZSTDQAT.Literal (inl 3); CodecZSTDQAT.NotLiteral])
  = CodecZSTDQAT.Raised
      (CodecZSTDQAT.mkCodecException CodecZSTDQAT.ILLEGAL_SYNTAX_FOR_CODEC_TYPE
         "ZSTD_QAT codec must have 1 parameter, given {}" [ArgNum 2]).
Proof.
  refine (registerCodecZSTDQAT_too_many_arguments (Z + string) scenarioSafeGet 1
            [CodecZSTDQAT.Literal (inl 3); CodecZSTDQAT.NotLiteral] _).
  cbn. lia.
Defined.

End FurtherScenarioFacts.

(** ** The mark files that the check without checksums misses *)

Section HashedMarksFacts.
Import Scenarios.
#[local] Existing Instance scenario.

(** C5.  For a part without checksums whose mark files are stored under
    the hashed stream name, the mark files that [loadIndexGranularity]
    reads ([getFileNameForColumn] with the marks extension) exist with the
    sizes 48 and 32, or 48 and 0, and [checkConsistency] passes: it probes
    the literal name and then the hash of the name with the extension, finds
    no mark file, and compares nothing. *)
Theorem checkConsistency_misses_hashed_marks :
  (exists loaded,
     loadIndexGranularity partHashedMarks = Ok loaded
     /\ marks_rows (index_granularity loaded) = [8192; 8192; 8192])
  /\ getFileSize (getDataPartStorage partHashedMarks)
       (getMarksFilePath (index_granularity_info partHashedMarks)
          (getFileNameForColumn partHashedMarks columnX)) = Ok 48
  /\ getFileSize (getDataPartStorage partHashedMarks)
       (getMarksFilePath (index_granularity_info partHashedMarks)
          (getFileNameForColumn partHashedMarks columnY)) = Ok 32
  /\ checkConsistency partHashedMarks false = Ok tt
  /\ getFileSize (getDataPartStorage partHashedEmptyMarks)
       (getMarksFilePath (index_granularity_info partHashedEmptyMarks)
          (getFileNameForColumn partHashedEmptyMarks columnY)) = Ok 0
  /\ checkConsistency partHashedEmptyMarks false = Ok tt.
Proof.
  split.
  - eexists. split; vm_compute; reflexivity.
  - repeat split; vm_compute; reflexivity.
Qed.

End HashedMarksFacts.
